(** * AllMovies bot ([web.py]): cache, rate limiter, lookup chain, webhook

    A shallow embedding of the request path of [web.py]: the in-memory TTL
    cache used by [tmdb_search] and [omdb_lookup], the per-user sliding
    window of [rate_limited], the message handler [text_handler] and the
    [webhook] route.

    Conventions of the embedding.
    - Python values that travel through the handler (decoded JSON, [None],
      strings) are the type [pyval].
    - A clock reading is an integer number of microseconds (the resolution
      of [datetime]), for [datetime.utcnow()] and for
      [datetime.utcnow().timestamp()] alike, so [RL_WINDOW] seconds are
      [RL_WINDOW * 1000000] units.  The rounding of the float returned by
      [timestamp()] is not modelled.
    - The module globals [cache] and [user_events] and the calls that leave
      the process (HTTP GET, database insert, Telegram send) live in a
      [World]; the latter are recorded in its [trace], oldest first.
    - What the outside answers during one run of the handler (clock
      readings, HTTP responses, whether a send succeeds) is an [Env].
    - A coroutine is a function [World -> Res A * World]: it returns or
      raises, and keeps the mutations made before raising. *)

From Stdlib Require Import ZArith List String Ascii Bool Lia Sorted.
From stdpp Require Import base option list gmap strings pretty.

Set Warnings "-register-all".

Open Scope string_scope.
Open Scope list_scope.
Open Scope Z_scope.

(** ** Python values *)

(** A binary64 float, named by the string [repr] prints for it (the shortest
    decimal that reads back as the same float); [str] and f-strings print
    that string. *)
Record pyfloat := PyFloat { float_repr : string }.

Inductive pyval :=
| PNone
| PBool (b : bool)
| PInt (z : Z)
| PFloat (f : pyfloat)
| PStr (s : string)
| PList (l : list pyval)
| PDict (d : list (string * pyval)).

(** Exceptions that can cross the modelled code.  [SubscriptError] stands for
    the [TypeError], [KeyError] or [IndexError] of a failing [x[i]]. *)
Inductive exn :=
| AttributeError
| SubscriptError
| HTTPError
| JSONDecodeError
| TelegramError
| HTTPException (status_code : Z) (detail : string).

Inductive Res (A : Type) :=
| Ret (a : A)
| Raise (e : exn).
Arguments Ret {A} a.
Arguments Raise {A} e.

(** [bool(v)] *)
Definition truthy (v : pyval) : bool :=
  match v with
  | PNone => false
  | PBool b => b
  | PInt z => negb (z =? 0)
  | PFloat f => negb (String.eqb (float_repr f) "0.0" || String.eqb (float_repr f) "-0.0")
  | PStr s => negb (String.eqb s "")
  | PList l => match l with [] => false | _ => true end
  | PDict d => match d with [] => false | _ => true end
  end.

(** [a or b] *)
Definition py_or (a b : pyval) : pyval := if truthy a then a else b.

Fixpoint assoc (k : string) (d : list (string * pyval)) : option pyval :=
  match d with
  | [] => None
  | (k', v) :: r => if String.eqb k k' then Some v else assoc k r
  end.

(** [v.get(k, dflt)]: only a dict has [get]. *)
Definition py_get (v : pyval) (k : string) (dflt : pyval) : Res pyval :=
  match v with
  | PDict d => Ret (default dflt (assoc k d))
  | _ => Raise AttributeError
  end.

(** [v == s] and [v != s] for a string literal [s] *)
Definition py_eq_str (v : pyval) (s : string) : bool :=
  match v with
  | PStr s' => String.eqb s' s
  | _ => false
  end.

(** Strings are UTF-8; Python indexes and slices them by code point.  A byte
    [10xxxxxx] continues the code point begun before it. *)
Definition is_continuation (c : ascii) : bool :=
  let n := N_of_ascii c in ((128 <=? n) && (n <? 192))%N.

(** [s[:n]] *)
Fixpoint str_take (n : nat) (s : string) : string :=
  match s with
  | EmptyString => EmptyString
  | String c r =>
      if is_continuation c then String c (str_take n r)
      else match n with
           | O => EmptyString
           | S m => String c (str_take m r)
           end
  end.

(** [v[:4]] *)
Definition py_slice4 (v : pyval) : Res pyval :=
  match v with
  | PStr s => Ret (PStr (str_take 4 s))
  | PList l => Ret (PList (firstn 4 l))
  | _ => Raise SubscriptError
  end.

(** [v[k]] for a string key; a key that is absent raises. *)
Definition py_item (v : pyval) (k : string) : Res pyval :=
  match v with
  | PDict d => match assoc k d with Some x => Ret x | None => Raise SubscriptError end
  | _ => Raise SubscriptError
  end.

(** [v[0]]; the keys of a decoded JSON object are strings, never [0]. *)
Definition py_item0 (v : pyval) : Res pyval :=
  match v with
  | PList (x :: _) => Ret x
  | PStr (String c r) => Ret (PStr (str_take 1 (String c r)))
  | _ => Raise SubscriptError
  end.

(** What the interpreter supplies and the source does not spell out:
    [str.lower], [str.strip], and [str()] of a list or dict. *)
Record PyRuntime := {
  str_lower : string -> string;
  str_strip : string -> string;
  container_str : pyval -> string
}.


(** [str(v)], as an f-string field prints [v] *)
Definition py_str (rt : PyRuntime) (v : pyval) : string :=
  match v with
  | PNone => "None"
  | PBool true => "True"
  | PBool false => "False"
  | PInt z => pretty z
  | PFloat f => float_repr f
  | PStr s => s
  | PList _ | PDict _ => container_str rt v
  end.

Definition nl : string := String "010"%char EmptyString.

(** ** Module state and effects *)

Record CacheItem := { value : pyval; expiry : Z }.

Inductive Event :=
| HttpGet (url : string) (params : list (string * string))
| DbInsert (user_id : Z) (q : string) (at_ : Z)
| LogWarning
| SendMessage (chat_id : Z) (text : string) (parse_mode : option string)
| SendPhoto (chat_id : Z) (photo : pyval) (caption : string) (parse_mode : option string).

Record World := {
  cache : gmap string CacheItem;
  user_events : gmap Z (list Z);
  trace : list Event
}.

Definition M (A : Type) : Type := World -> Res A * World.

Definition ret {A} (a : A) : M A := fun w => (Ret a, w).
Definition raise {A} (e : exn) : M A := fun w => (Raise e, w).
Definition bind {A B} (c : M A) (k : A -> M B) : M B :=
  fun w => match c w with
           | (Ret a, w') => k a w'
           | (Raise e, w') => (Raise e, w')
           end.
Definition lift {A} (r : Res A) : M A := fun w => (r, w).

Notation "'let!' x := c 'in' k" := (bind c (fun x => k))
  (at level 10, x name, c at level 200, k at level 200).

Definition emit (e : Event) : M unit :=
  fun w => (Ret tt, {| cache := cache w; user_events := user_events w;
                       trace := trace w ++ [e] |}).

Definition cache_get (key : string) : M (option CacheItem) :=
  fun w => (Ret (cache w !! key), w).

Definition cache_set (key : string) (ci : CacheItem) : M unit :=
  fun w => (Ret tt, {| cache := <[key := ci]> (cache w);
                       user_events := user_events w; trace := trace w |}).

(** What the outside answers during one run of [text_handler]: the clock
    at each [utcnow()], the outcome of each call that leaves the process. *)
Record Env := {
  now_rl : Z;
  db_bool : Res bool;
  now_db : Z;
  db_insert : Res unit;
  now_tmdb : Z;
  tmdb_http : Res pyval;
  now_omdb : Z;
  omdb_http : Res pyval;
  send : Res unit
}.

(** The environment variables read at import, and whether [startup] bound
    the global [db] to a database. *)
Record Config := {
  BOT_TOKEN : string;
  TMDB_API_KEY : string;
  OMDB_API_KEY : string;
  WEBHOOK_SECRET : string;
  CACHE_TTL_SECONDS : Z;
  db : bool
}.

Definition usec : Z := 1000000.
Definition RL_WINDOW : Z := 30.
Definition RL_LIMIT : Z := 15.

(** ** The rate limiter *)

(** [while dq and now - dq[0] > RL_WINDOW: dq.popleft()] *)
Fixpoint popleft_old (now : Z) (dq : list Z) : list Z :=
  match dq with
  | [] => []
  | t :: r => if now - t >? RL_WINDOW * usec then popleft_old now r else dq
  end.

(** [rate_limited(uid)] with the clock reading [now]; [user_events] is a
    [defaultdict(deque)], so reading [user_events[uid]] creates the deque. *)
Definition rate_limited (uid now : Z) (ue : gmap Z (list Z)) : bool * gmap Z (list Z) :=
  let dq := popleft_old now (default [] (ue !! uid)) in
  if Z.of_nat (List.length dq) >=? RL_LIMIT then (true, <[uid := dq]> ue)
  else (false, <[uid := dq ++ [now]]> ue).

Definition on_user_events {A} (f : gmap Z (list Z) -> A * gmap Z (list Z)) : M A :=
  fun w => let '(a, ue) := f (user_events w) in
           (Ret a, {| cache := cache w; user_events := ue; trace := trace w |}).

(** ** The handler *)

Record Message := { text : option string }.

Record Update := {
  effective_user : option Z;
  effective_chat : option Z;
  message : option Message
}.

(** The part of the HTTP request that [webhook] reads: the [secret] query
    parameter, and what [await request.json()] gives. *)
Record Request := { query_secret : option string; json : Res pyval }.

Definition Markdown : option string := Some "Markdown".

(** ** A concrete runtime, for evaluating the model on ASCII text *)

Definition ascii_lower_char (c : ascii) : ascii :=
  let n := N_of_ascii c in
  if ((65 <=? n) && (n <=? 90))%N then ascii_of_N (n + 32) else c.

Fixpoint ascii_lower (s : string) : string :=
  match s with
  | EmptyString => EmptyString
  | String c r => String (ascii_lower_char c) (ascii_lower r)
  end.

Definition is_space (c : ascii) : bool :=
  let n := N_of_ascii c in
  ((n =? 32) || ((9 <=? n) && (n <=? 13)) || ((28 <=? n) && (n <=? 31)))%N.

Fixpoint lstrip (s : string) : string :=
  match s with
  | EmptyString => EmptyString
  | String c r => if is_space c then lstrip r else s
  end.

Fixpoint rstrip (s : string) : string :=
  match s with
  | EmptyString => EmptyString
  | String c r =>
      match rstrip r with
      | EmptyString => if is_space c then EmptyString else String c EmptyString
      | r' => String c r'
      end
  end.

(** Agrees with Python on ASCII text; lists and dicts print as [...]. *)
Definition ascii_runtime : PyRuntime := {|
  str_lower := ascii_lower;
  str_strip := fun s => rstrip (lstrip s);
  container_str := fun _ => "..."
|}.

Definition world0 : World := {| cache := ∅; user_events := ∅; trace := [] |}.

Definition jailer_top : list (string * pyval) :=
  [("title", PStr "Jailer");
   ("release_date", PStr "2023-08-10");
   ("vote_average", PFloat (PyFloat "7.8"));
   ("poster_path", PStr "/abc.jpg")].

Definition jailer_payload : pyval :=
  PDict [("results", PList [PDict jailer_top])].

Definition cfg_demo : Config := {|
  BOT_TOKEN := "123:abc"; TMDB_API_KEY := "tk"; OMDB_API_KEY := "ok";
  WEBHOOK_SECRET := "wh_dev"; CACHE_TTL_SECONDS := 900; db := true |}.

Definition env_demo : Env := {|
  now_rl := 0; db_bool := Ret true; now_db := 0; db_insert := Ret tt;
  now_tmdb := 0; tmdb_http := Ret jailer_payload;
  now_omdb := 0; omdb_http := Raise HTTPError; send := Ret tt |}.

Definition upd_demo : Update := {|
  effective_user := Some 7; effective_chat := Some 42;
  message := Some {| text := Some "Jailer" |} |}.

(** The caption the handler sends for [jailer_payload], and the one the
    end-to-end scenario of the spec expects. *)
Definition jailer_caption : string :=
  "🎬 *Jailer* (2023)" +:+ nl +:+ "⭐ 7.8 / 10 (TMDB)".

Definition jailer_caption_spec : string :=
  "Jailer (2023)" +:+ nl +:+ "7.8 / 10 (TMDB)".

Definition jailer_photo : pyval := PStr "https://image.tmdb.org/t/p/w500/abc.jpg".

Definition omdb_payload (poster : string) : pyval :=
  PDict [("Title", PStr "Jailer"); ("Year", PStr "2023");
         ("imdbRating", PStr "7.1"); ("Poster", PStr poster);
         ("Response", PStr "True")].

(** The Primary service is down; the Secondary would match. *)
Definition env_tmdb_down : Env := {|
  now_rl := 0; db_bool := Ret true; now_db := 0; db_insert := Ret tt;
  now_tmdb := 0; tmdb_http := Raise HTTPError;
  now_omdb := 0; omdb_http := Ret (omdb_payload "https://img.example/j.jpg");
  send := Ret tt |}.

(** The Primary service answers with no match; the Secondary answers with
    the given poster field. *)
Definition env_tmdb_empty (poster : string) : Env := {|
  now_rl := 0; db_bool := Ret true; now_db := 0; db_insert := Ret tt;
  now_tmdb := 0; tmdb_http := Ret (PDict [("results", PList [])]);
  now_omdb := 0; omdb_http := Ret (omdb_payload poster);
  send := Ret tt |}.

(** [env_demo] read [secs] seconds later. *)
Definition env_at (secs : Z) (primary : Res pyval) : Env := {|
  now_rl := secs * usec; db_bool := Ret true; now_db := secs * usec;
  db_insert := Ret tt;
  now_tmdb := secs * usec; tmdb_http := primary;
  now_omdb := secs * usec; omdb_http := Raise HTTPError; send := Ret tt |}.

Definition msg_demo : Message := {| text := Some "Jailer" |}.

Definition upd_anon (chat : Z) : Update := {|
  effective_user := None; effective_chat := Some chat;
  message := Some msg_demo |}.

Definition req_demo (secret : option string) : Request := {|
  query_secret := secret;
  json := Ret (PDict [("update_id", PInt 1)]) |}.

(** A stand-in for the Telegram library's routing, which leaves a mark in
    the trace when it is reached. *)
Definition de_json_demo (data : pyval) : Res Update := Ret upd_demo.
Definition process_update_demo (update : Update) : M unit := emit LogWarning.

(** The identity 0 has 15 events at t=0. *)
Definition world_anon_full : World :=
  {| cache := ∅; user_events := {[0 := repeat 0 15]}; trace := [] |}.

Definition with_primary (env : Env) (answer : Res pyval) : Env := {|
  now_rl := now_rl env; db_bool := db_bool env; now_db := now_db env;
  db_insert := db_insert env;
  now_tmdb := now_tmdb env; tmdb_http := answer;
  now_omdb := now_omdb env; omdb_http := omdb_http env; send := send env |}.

Definition no_match : pyval := PDict [("results", PList [])].

(** ** More inputs for evaluating the model *)

Definition omdb_no : pyval :=
  PDict [("Response", PStr "False"); ("Error", PStr "Movie not found!")].

(** Neither service knows the title. *)
Definition env_none : Env := {|
  now_rl := 0; db_bool := Ret true; now_db := 0; db_insert := Ret tt;
  now_tmdb := 0; tmdb_http := Ret no_match;
  now_omdb := 0; omdb_http := Ret omdb_no; send := Ret tt |}.

(** No API key at all, and a cache that is never live. *)
Definition cfg_offline : Config := {|
  BOT_TOKEN := "123:abc"; TMDB_API_KEY := ""; OMDB_API_KEY := "";
  WEBHOOK_SECRET := "wh_dev"; CACHE_TTL_SECONDS := 900; db := true |}.

Definition cfg_nocache : Config := {|
  BOT_TOKEN := "123:abc"; TMDB_API_KEY := "tk"; OMDB_API_KEY := "ok";
  WEBHOOK_SECRET := "wh_dev"; CACHE_TTL_SECONDS := 0; db := true |}.

(** An update that carries an edited message: no [message]. *)
Definition upd_edit : Update := {|
  effective_user := Some 7; effective_chat := Some 42; message := None |}.

(** User 7 calls fifteen times at t=0, user 8 once in between. *)
Definition calls_burst : list (Z * Z) :=
  repeat (7, 0) 8 ++ [(8, 0)] ++ repeat (7, 0) 7.
Section Bot.
Context (rt : PyRuntime) (cfg : Config).

(** [ci and ci.expiry > now], giving [ci.value] *)
Definition live_value (ci : option CacheItem) (now : Z) : option pyval :=
  match ci with
  | Some c => if expiry c >? now then Some (value c) else None
  | None => None
  end.

(** [client.get(url, params)], [raise_for_status()], [json()] *)
Definition http_get_json (url : string) (params : list (string * string))
    (outcome : Res pyval) : M pyval :=
  let! _ := emit (HttpGet url params) in lift outcome.

Definition tmdb_search (env : Env) (title : string) : M pyval :=
  if String.eqb (TMDB_API_KEY cfg) "" then ret PNone
  else
    let key := "tmdb:" +:+ str_lower rt title in
    let now := now_tmdb env in
    let! ci := cache_get key in
    match live_value ci now with
    | Some v => ret v
    | None =>
        let url := "https://api.themoviedb.org/3/search/movie" in
        let params := [("api_key", TMDB_API_KEY cfg); ("query", title);
                       ("include_adult", "false")] in
        let! data := http_get_json url params (tmdb_http env) in
        let! _ := cache_set key {| value := data;
                                   expiry := now + CACHE_TTL_SECONDS cfg * usec |} in
        ret data
    end.

Definition omdb_lookup (env : Env) (title : string) : M pyval :=
  if String.eqb (OMDB_API_KEY cfg) "" then ret PNone
  else
    let key := "omdb:" +:+ str_lower rt title in
    let now := now_omdb env in
    let! ci := cache_get key in
    match live_value ci now with
    | Some v => ret v
    | None =>
        let url := "http://www.omdbapi.com/" in
        let params := [("apikey", OMDB_API_KEY cfg); ("t", title)] in
        let! data := http_get_json url params (omdb_http env) in
        let! _ := cache_set key {| value := data;
                                   expiry := now + CACHE_TTL_SECONDS cfg * usec |} in
        ret data
    end.

(** [update.effective_chat.id] *)
Definition chat_id_of (update : Update) : M Z :=
  match effective_chat update with
  | Some c => ret c
  | None => raise AttributeError
  end.

Definition send_message (env : Env) (update : Update) (txt : string)
    (parse_mode : option string) : M unit :=
  let! chat := chat_id_of update in
  let! _ := emit (SendMessage chat txt parse_mode) in lift (send env).

Definition send_photo (env : Env) (update : Update) (photo : pyval)
    (caption : string) (parse_mode : option string) : M unit :=
  let! chat := chat_id_of update in
  let! _ := emit (SendPhoto chat photo caption parse_mode) in lift (send env).

(** The [try] block around the database insert: whatever it raises is
    logged and dropped. *)
Definition log_search (env : Env) (uid : Z) (q : string) : M unit :=
  if db cfg then
    match db_bool env with
    | Ret true =>
        let! _ := emit (DbInsert uid q (now_db env)) in
        match db_insert env with
        | Ret _ => ret tt
        | Raise _ => emit LogWarning
        end
    | Ret false => ret tt
    | Raise _ => emit LogWarning
    end
  else ret tt.

Definition caption_of (title year rating : pyval) (source : string) : string :=
  "🎬 *" +:+ py_str rt title +:+ "* (" +:+ py_str rt year +:+ ")" +:+ nl +:+
  "⭐ " +:+ py_str rt rating +:+ " / 10 (" +:+ source +:+ ")".

(** The body of [if info and info.get("results"):] *)
Definition reply_tmdb (env : Env) (update : Update) (q : string) (info : pyval) : M unit :=
  let! results := lift (py_item info "results") in
  let! top := lift (py_item0 results) in
  let! t := lift (py_get top "title" PNone) in
  let title := py_or t (PStr q) in
  let! rd := lift (py_get top "release_date" PNone) in
  let! year := lift (py_slice4 (py_or rd (PStr ""))) in
  let! rating := lift (py_get top "vote_average" (PStr "N/A")) in
  let caption := caption_of title year rating "TMDB" in
  let! poster := lift (py_get top "poster_path" PNone) in
  if truthy poster then
    let url := "https://image.tmdb.org/t/p/w500" +:+ py_str rt poster in
    send_photo env update (PStr url) caption Markdown
  else send_message env update caption Markdown.

(** The body of [if om and om.get("Response") == "True":] *)
Definition reply_omdb (env : Env) (update : Update) (om : pyval) : M unit :=
  let! poster := lift (py_get om "Poster" PNone) in
  let! title := lift (py_get om "Title" (PStr "?")) in
  let! year := lift (py_get om "Year" (PStr "")) in
  let! rating := lift (py_get om "imdbRating" (PStr "N/A")) in
  let caption := caption_of title year rating "IMDB" in
  if truthy poster && negb (py_eq_str poster "N/A") then
    send_photo env update poster caption Markdown
  else send_message env update caption Markdown.

(** [v and v.get(k)] *)
Definition and_get (v : pyval) (k : string) : Res pyval :=
  if truthy v then py_get v k PNone else Ret v.

(** [text_handler] from [om = await omdb_lookup(q)] to its end.  In
    [om and om.get("Response") == "True"] a falsy [om] is never the string
    ["True"], so the comparison may be made on the value of [and_get]. *)
Definition omdb_and_reply (env : Env) (update : Update) (q : string) : M unit :=
  let! om := omdb_lookup env q in
  let! resp := lift (and_get om "Response") in
  if py_eq_str resp "True" then reply_omdb env update om
  else send_message env update "❌ Not found. Try another title." None.

(** [text_handler] from [info = await tmdb_search(q)] to its end *)
Definition lookup_and_reply (env : Env) (update : Update) (q : string) : M unit :=
  let! info := tmdb_search env q in
  let! r := lift (and_get info "results") in
  if truthy r then reply_tmdb env update q info
  else omdb_and_reply env update q.

(** [update.effective_user.id if update.effective_user else 0] *)
Definition uid_of (update : Update) : Z :=
  match effective_user update with
  | Some u => u
  | None => 0
  end.

(** [(update.message.text or "").strip()] *)
Definition query_of (msg : Message) : string :=
  str_strip rt (default "" (text msg)).

Definition text_handler (env : Env) (update : Update) : M unit :=
  let uid := uid_of update in
  let! limited := on_user_events (rate_limited uid (now_rl env)) in
  if limited then
    send_message env update "⏳ Too many requests. Slow down." None
  else
    let! msg := match message update with
                | Some m => ret m
                | None => raise AttributeError
                end in
    let q := query_of msg in
    let! _ := log_search env uid q in
    lookup_and_reply env update q.

(** ** The webhook route *)

Section Webhook.
(** [Update.de_json] and [Application.process_update] belong to the
    Telegram library. *)
Context (de_json : pyval -> Res Update) (process_update : Update -> M unit).

Definition webhook (token : string) (request : Request) : M pyval :=
  if negb (String.eqb token (BOT_TOKEN cfg)) then
    raise (HTTPException 403 "bad token")
  else if negb (String.eqb (default "" (query_secret request)) (WEBHOOK_SECRET cfg)) then
    raise (HTTPException 403 "bad secret")
  else
    let! data := lift (json request) in
    let! update := lift (de_json data) in
    let! _ := process_update update in
    ret (PDict [("ok", PBool true)]).
End Webhook.

(** ** The command handlers *)

Definition start_cmd (env : Env) (update : Update) : M unit :=
  send_message env update
    ("🎬 Welcome to *AllMovies UltraPro*!" +:+ nl +:+ "Send a movie name.") Markdown.

Definition help_cmd (env : Env) (update : Update) : M unit :=
  send_message env update "Send a movie name. Example: `Jailer`" Markdown.

Definition ping_cmd (env : Env) (update : Update) : M unit :=
  send_message env update "pong ✅" None.
(** ** Notions used in the statements: the rate limiter *)

(** The deque-level effect of one call, for replaying calls of one user. *)
Definition limiter_step (now : Z) (dq : list Z) : bool * list Z :=
  let dq' := popleft_old now dq in
  if Z.of_nat (List.length dq') >=? RL_LIMIT then (true, dq') else (false, dq' ++ [now]).

(** Successive calls for one user at the given clock readings: the answers
    of [rate_limited] ([true] means rejected) and the final state. *)
Fixpoint replay (uid : Z) (times : list Z) (ue : gmap Z (list Z))
    : list bool * gmap Z (list Z) :=
  match times with
  | [] => ([], ue)
  | t :: r =>
      let '(b, ue1) := rate_limited uid t ue in
      let '(bs, ue2) := replay uid r ue1 in
      (b :: bs, ue2)
  end.

Fixpoint replay_dq (times : list Z) (dq : list Z) : list bool :=
  match times with
  | [] => []
  | t :: r => (limiter_step t dq).1 :: replay_dq r (limiter_step t dq).2
  end.

(** The deque stops shrinking at a timestamp inside the window. *)
Definition front_in_window (now : Z) (dq : list Z) : Prop :=
  match dq with
  | [] => True
  | t :: _ => now - RL_WINDOW * usec <= t
  end.

(** Calls [(uid, now)] to the limiter, in order. *)
Definition limiter_run (calls : list (Z * Z)) (ue : gmap Z (list Z)) : gmap Z (list Z) :=
  fold_left (fun ue c => (rate_limited c.1 c.2 ue).2) calls ue.

(** What the spec asks of a deque after a call at [now]. *)
Definition window_ok (now : Z) (dq : list Z) : Prop :=
  Forall (fun t => now - t <= RL_WINDOW * usec) dq /\
  Z.of_nat (List.length dq) <= RL_LIMIT.

(** The invariant as the spec words it, with no condition on the clock: it
    holds after every call of every run from the empty state. *)
Definition window_invariant_always : Prop :=
  forall calls uid now,
    window_ok now (default [] (limiter_run (calls ++ [(uid, now)]) ∅ !! uid)).

(** What every deque satisfies between calls when the clock never steps
    back: timestamps in order of arrival, none later than the last reading,
    no more than [RL_LIMIT] of them. *)
Definition dq_wf (now : Z) (dq : list Z) : Prop :=
  StronglySorted Z.le dq /\
  Forall (fun t => t <= now) dq /\
  Z.of_nat (List.length dq) <= RL_LIMIT.

Definition ue_wf (now : Z) (ue : gmap Z (list Z)) : Prop :=
  forall uid dq, ue !! uid = Some dq -> dq_wf now dq.

(** ** Notions used in the statements: the cached lookups *)

Inductive Service := Primary | Secondary.

(** Number of HTTP requests in a trace. *)
Fixpoint fetches (tr : list Event) : nat :=
  match tr with
  | [] => O
  | HttpGet _ _ :: r => S (fetches r)
  | _ :: r => fetches r
  end.


(** The two lookups, side by side. *)
Definition lookup (s : Service) : Env -> string -> M pyval :=
  match s with
  | Primary => tmdb_search
  | Secondary => omdb_lookup
  end.

Definition api_key (s : Service) : string :=
  match s with
  | Primary => TMDB_API_KEY cfg
  | Secondary => OMDB_API_KEY cfg
  end.

Definition cache_key (s : Service) (title : string) : string :=
  match s with
  | Primary => "tmdb:" +:+ str_lower rt title
  | Secondary => "omdb:" +:+ str_lower rt title
  end.

Definition read_time (s : Service) (env : Env) : Z :=
  match s with
  | Primary => now_tmdb env
  | Secondary => now_omdb env
  end.

Definition fetch_outcome (s : Service) (env : Env) : Res pyval :=
  match s with
  | Primary => tmdb_http env
  | Secondary => omdb_http env
  end.

Definition request (s : Service) (title : string) : Event :=
  match s with
  | Primary =>
      HttpGet "https://api.themoviedb.org/3/search/movie"
        [("api_key", TMDB_API_KEY cfg); ("query", title); ("include_adult", "false")]
  | Secondary =>
      HttpGet "http://www.omdbapi.com/" [("apikey", OMDB_API_KEY cfg); ("t", title)]
  end.

(** ** Notions used in the statements: the handler *)

Definition add_events (evs : list Event) (w : World) : World :=
  {| cache := cache w; user_events := user_events w; trace := trace w ++ evs |}.

(** The world once [rate_limited] has run for the sender. *)
Definition limited_world (env : Env) (update : Update) (w : World) : World :=
  {| cache := cache w;
     user_events := (rate_limited (uid_of update) (now_rl env) (user_events w)).2;
     trace := trace w |}.

(** What the [try] block around the database insert leaves in the trace. *)
Definition audit_events (env : Env) (uid : Z) (q : string) : list Event :=
  if db cfg then
    match db_bool env with
    | Ret true =>
        DbInsert uid q (now_db env) ::
        match db_insert env with Ret _ => [] | Raise _ => [LogWarning] end
    | Ret false => []
    | Raise _ => [LogWarning]
    end
  else [].

(** The world in which the lookups start, for a message that passed the
    rate limiter. *)
Definition ready (env : Env) (update : Update) (msg : Message) (w : World) : World :=
  add_events (audit_events env (uid_of update) (query_of msg)) (limited_world env update w).

Definition is_omdb_request (e : Event) : bool :=
  match e with
  | HttpGet url _ => String.eqb url "http://www.omdbapi.com/"
  | _ => false
  end.

Definition is_send (e : Event) : bool :=
  match e with
  | SendMessage _ _ _ | SendPhoto _ _ _ _ => true
  | _ => false
  end.

(** The spec's normalized [LookupResult] of a match, and the two adapters
    that build it; [poster_url] is [None] when there is no poster. *)
Record LookupResult := {
  lr_title : pyval;
  lr_year : pyval;
  lr_rating : pyval;
  rating_source : string;
  poster_url : option pyval
}.

Definition res_bind {A B} (r : Res A) (k : A -> Res B) : Res B :=
  match r with
  | Ret a => k a
  | Raise e => Raise e
  end.

Definition primary_result (q : string) (top : pyval) : Res LookupResult :=
  res_bind (py_get top "title" PNone) (fun t =>
  res_bind (py_get top "release_date" PNone) (fun rd =>
  res_bind (py_slice4 (py_or rd (PStr ""))) (fun year =>
  res_bind (py_get top "vote_average" (PStr "N/A")) (fun rating =>
  res_bind (py_get top "poster_path" PNone) (fun poster =>
  Ret {| lr_title := py_or t (PStr q); lr_year := year; lr_rating := rating;
         rating_source := "TMDB";
         poster_url :=
           if truthy poster
           then Some (PStr ("https://image.tmdb.org/t/p/w500" +:+ py_str rt poster))
           else None |}))))).

Definition secondary_result (om : pyval) : Res LookupResult :=
  res_bind (py_get om "Poster" PNone) (fun poster =>
  res_bind (py_get om "Title" (PStr "?")) (fun title =>
  res_bind (py_get om "Year" (PStr "")) (fun year =>
  res_bind (py_get om "imdbRating" (PStr "N/A")) (fun rating =>
  Ret {| lr_title := title; lr_year := year; lr_rating := rating;
         rating_source := "IMDB";
         poster_url :=
           if truthy poster && negb (py_eq_str poster "N/A")
           then Some poster else None |})))).

(** The spec's Render stage for a match. *)
Definition render (env : Env) (update : Update) (r : LookupResult) : M unit :=
  let caption := caption_of (lr_title r) (lr_year r) (lr_rating r) (rating_source r) in
  match poster_url r with
  | Some p => send_photo env update p caption Markdown
  | None => send_message env update caption Markdown
  end.

(** [update] with another sender. *)
Definition with_user (update : Update) (u : option Z) : Update :=
  {| effective_user := u; effective_chat := effective_chat update;
     message := message update |}.

(** A computation that leaves [user_events] alone. *)
Definition keeps_ue {A} (c : M A) : Prop :=
  forall w, user_events (c w).2 = user_events w.

(** The failure policy as the spec words it: a run in which the Primary
    request fails ends as the run in which the Primary answered with no
    match, and does not raise the failure. *)
Definition absorbs_primary_failure : Prop :=
  forall env upd w e,
    tmdb_http env = Raise e ->
    (text_handler env upd w).1 = (text_handler (with_primary env (Ret no_match)) upd w).1 /\
    (text_handler env upd w).1 <> Raise e.

(** ** Notions used in the statements: histories of the limiter *)

(** The timestamps of the calls of [u] that [rate_limited] let through
    during a run of calls [(uid, now)] from the state [ue]. *)
Fixpoint accepted (u : Z) (calls : list (Z * Z)) (ue : gmap Z (list Z)) : list Z :=
  match calls with
  | [] => []
  | (u', t) :: r =>
      (if (u' =? u) && negb (rate_limited u' t ue).1 then [t] else [])
      ++ accepted u r (rate_limited u' t ue).2
  end.

(** The answers [u] got during the run, and the clock readings of its calls. *)
Fixpoint answers_for (u : Z) (calls : list (Z * Z)) (ue : gmap Z (list Z)) : list bool :=
  match calls with
  | [] => []
  | (u', t) :: r =>
      (if u' =? u then [(rate_limited u' t ue).1] else [])
      ++ answers_for u r (rate_limited u' t ue).2
  end.

Fixpoint times_of (u : Z) (calls : list (Z * Z)) : list Z :=
  match calls with
  | [] => []
  | (u', t) :: r => (if u' =? u then [t] else []) ++ times_of u r
  end.

(** How many of the timestamps lie in the closed interval [[a, b]]. *)
Fixpoint count_between (a b : Z) (l : list Z) : nat :=
  match l with
  | [] => O
  | t :: r =>
      if (a <=? t) && (t <=? b) then S (count_between a b r) else count_between a b r
  end.

(** How the accepted timestamps [acc] of an identity relate to its deque
    [dq] after a call at [now]: the deque is what is left of the history
    once the timestamps that fell out of the window at some call are gone. *)
Definition history_of (now : Z) (acc dq : list Z) : Prop :=
  exists dropped,
    acc = dropped ++ dq /\
    Forall (fun t => t < now - RL_WINDOW * usec) dropped /\
    StronglySorted Z.le dq /\
    Forall (fun t => t <= now) dq /\
    Z.of_nat (List.length dq) <= RL_LIMIT /\
    forall a, Z.of_nat (count_between a (a + RL_WINDOW * usec) acc) <= RL_LIMIT.

(** ** Notions used in the statements: runs of the handler *)

Definition is_audit (e : Event) : bool :=
  match e with
  | DbInsert _ _ _ | LogWarning => true
  | _ => false
  end.

Definition is_tmdb_request (e : Event) : bool :=
  match e with
  | HttpGet url _ => String.eqb url "https://api.themoviedb.org/3/search/movie"
  | _ => false
  end.

(** The events of a trace that satisfy [p], in order. *)
Fixpoint keep (p : Event -> bool) (tr : list Event) : list Event :=
  match tr with
  | [] => []
  | e :: r => if p e then e :: keep p r else keep p r
  end.

(** Number of requests to the Primary service in a trace. *)
Definition tmdb_requests (tr : list Event) : nat :=
  List.length (keep is_tmdb_request tr).

(** [env] with other outcomes for the database insert. *)
Definition with_audit (env : Env) (truth : Res bool) (at_ : Z) (ins : Res unit) : Env := {|
  now_rl := now_rl env; db_bool := truth; now_db := at_; db_insert := ins;
  now_tmdb := now_tmdb env; tmdb_http := tmdb_http env;
  now_omdb := now_omdb env; omdb_http := omdb_http env; send := send env |}.

(** A computation that either raises with the world as it found it, or
    makes one send and ends as the send does. *)
Definition one_reply (env : Env) (c : M unit) : Prop :=
  forall w,
    (exists e, c w = (Raise e, w)) \/
    (exists ev, is_send ev = true /\ c w = (send env, add_events [ev] w)).

(** A computation that does not look at the trace: from a cache and a
    [user_events] it gives the same result, state and new events whatever
    the trace was. *)
Definition oblivious {A} (c : M A) : Prop :=
  forall ca ue, exists r ca' ue' new,
    forall tr,
      c {| cache := ca; user_events := ue; trace := tr |}
      = (r, {| cache := ca'; user_events := ue'; trace := tr ++ new |}).

(** The string types that [v[:4]] accepts. *)
Definition sliceable (v : pyval) : bool :=
  match v with
  | PStr _ | PList _ => true
  | _ => false
  end.

(** * Theorems *)

(** ** The rate limiter *)

Lemma rate_limited_step uid now ue :
  rate_limited uid now ue =
  ((limiter_step now (default [] (ue !! uid))).1,
   <[uid := (limiter_step now (default [] (ue !! uid))).2]> ue).
Proof.
  unfold rate_limited, limiter_step.
  destruct (Z.of_nat _ >=? RL_LIMIT); reflexivity.
Qed.

Lemma replay_as_dq uid times : forall ue,
  (replay uid times ue).1 = replay_dq times (default [] (ue !! uid)).
Proof.
  induction times as [|t r IH]; intros ue; [reflexivity|].
  cbn [replay replay_dq]. rewrite rate_limited_step.
  specialize (IH (<[uid := (limiter_step t (default [] (ue !! uid))).2]> ue)).
  destruct (replay uid r _) as [bs ue2]. cbn [fst] in *.
  rewrite IH, lookup_insert_eq. reflexivity.
Qed.

Lemma popleft_old_split now dq :
  exists dropped,
    dq = dropped ++ popleft_old now dq /\
    Forall (fun t => t < now - RL_WINDOW * usec) dropped.
Proof.
  induction dq as [|t r [dropped [Heq Hold]]]; [exists []; split; [reflexivity|constructor]|].
  cbn [popleft_old]. destruct (now - t >? RL_WINDOW * usec) eqn:E.
  - exists (t :: dropped). split; [cbn; congruence|].
    constructor; [lia|assumption].
  - exists []. split; [reflexivity|constructor].
Qed.

Lemma popleft_old_front now dq : front_in_window now (popleft_old now dq).
Proof.
  induction dq as [|t r IH]; [exact I|].
  cbn [popleft_old]. destruct (now - t >? RL_WINDOW * usec) eqn:E; [assumption|].
  cbn. lia.
Qed.

(** [C4] On each call [rate_limited] pops from the front of the caller's deque
    the timestamps older than [now - RL_WINDOW], stopping at the first one
    inside the window; if [RL_LIMIT] or more remain it answers [True]
    (rejected) and records nothing, otherwise it appends [now] and answers
    [False] (allowed).  With the limit 15 and the window 30 s, 15 calls at
    t=0 and one at t=1 s reject exactly the 16th; calls at t=0 and t=31 s
    are both allowed. *)
Theorem rate_limited_sliding_window :
  (forall uid now ue, exists dropped kept,
      default [] (ue !! uid) = dropped ++ kept /\
      Forall (fun t => t < now - RL_WINDOW * usec) dropped /\
      front_in_window now kept /\
      rate_limited uid now ue =
        if bool_decide (RL_LIMIT <= Z.of_nat (List.length kept))
        then (true, <[uid := kept]> ue)
        else (false, <[uid := kept ++ [now]]> ue)) /\
  (forall uid,
      (replay uid (repeat 0 15 ++ [1 * usec]) ∅).1 = repeat false 15 ++ [true] /\
      (replay uid [0; 31 * usec] ∅).1 = [false; false]).
Proof.
  split.
  - intros uid now ue.
    destruct (popleft_old_split now (default [] (ue !! uid))) as [dropped [Heq Hold]].
    exists dropped, (popleft_old now (default [] (ue !! uid))).
    split; [exact Heq|]. split; [exact Hold|]. split; [apply popleft_old_front|].
    unfold rate_limited.
    destruct (Z.of_nat _ >=? RL_LIMIT) eqn:E.
    + rewrite bool_decide_eq_true_2; [reflexivity|lia].
    + rewrite bool_decide_eq_false_2; [reflexivity|lia].
  - intros uid. rewrite !replay_as_dq, lookup_empty. split; vm_compute; reflexivity.
Qed.

Lemma dq_wf_mono now now' dq : now <= now' -> dq_wf now dq -> dq_wf now' dq.
Proof.
  intros Hle (Hs & Hb & Hl). repeat split; try assumption.
  eapply Forall_impl; [exact Hb|]. cbn. intros; lia.
Qed.

Lemma dq_wf_nil now : dq_wf now [].
Proof. repeat split; try constructor. unfold RL_LIMIT. cbn. lia. Qed.

Lemma popleft_old_wf now0 now dq : dq_wf now0 dq -> dq_wf now0 (popleft_old now dq).
Proof.
  induction dq as [|t r IH]; intros Hwf; [exact Hwf|].
  cbn [popleft_old]. destruct (now - t >? RL_WINDOW * usec); [|exact Hwf].
  apply IH. destruct Hwf as (Hs & Hb & Hl).
  apply StronglySorted_inv in Hs as [Hs _]. apply Forall_cons in Hb as [_ Hb].
  repeat split; try assumption. cbn [List.length] in Hl. lia.
Qed.

Lemma popleft_old_sorted_window now dq :
  StronglySorted Z.le dq ->
  Forall (fun t => now - t <= RL_WINDOW * usec) (popleft_old now dq).
Proof.
  induction dq as [|t r IH]; intros Hs; [constructor|].
  apply StronglySorted_inv in Hs as [Hs Hhd].
  cbn [popleft_old]. destruct (now - t >? RL_WINDOW * usec) eqn:E; [auto|].
  constructor; [lia|].
  eapply Forall_impl; [exact Hhd|]. cbn. intros; lia.
Qed.

Lemma StronglySorted_snoc (l : list Z) (x : Z) :
  StronglySorted Z.le l -> Forall (fun t => t <= x) l -> StronglySorted Z.le (l ++ [x]).
Proof.
  induction l as [|a l IH]; intros Hs Hb; cbn.
  - repeat constructor.
  - apply StronglySorted_inv in Hs as [Hs Hhd]. apply Forall_cons in Hb as [Ha Hb].
    constructor; [auto|]. apply Forall_app. split; [assumption|repeat constructor; assumption].
Qed.

(** One call at [now], no earlier than the previous reading [now0]. *)
Lemma limiter_step_wf now0 now dq :
  now0 <= now -> dq_wf now0 dq ->
  dq_wf now (limiter_step now dq).2 /\ window_ok now (limiter_step now dq).2.
Proof.
  intros Hle Hwf.
  pose proof (popleft_old_wf now0 now dq Hwf) as Hp.
  apply (dq_wf_mono now0 now _ Hle) in Hp. destruct Hp as (Hs & Hb & Hl).
  pose proof (popleft_old_sorted_window now dq (proj1 Hwf)) as Hw.
  unfold limiter_step. destruct (Z.of_nat _ >=? RL_LIMIT) eqn:E; cbn [snd].
  - split; [repeat split; assumption|split; assumption].
  - assert (Hlen : Z.of_nat (List.length (popleft_old now dq ++ [now])) <= RL_LIMIT).
    { rewrite length_app. cbn [List.length]. lia. }
    split.
    + repeat split; [apply StronglySorted_snoc; assumption| |exact Hlen].
      apply Forall_app. split; [assumption|repeat constructor; lia].
    + split; [|exact Hlen].
      apply Forall_app. split; [assumption|]. repeat constructor. unfold RL_WINDOW, usec. lia.
Qed.

Lemma rate_limited_wf now0 now uid ue :
  now0 <= now -> ue_wf now0 ue ->
  ue_wf now (rate_limited uid now ue).2 /\
  window_ok now (default [] ((rate_limited uid now ue).2 !! uid)).
Proof.
  intros Hle Hwf. rewrite rate_limited_step. cbn [snd].
  assert (Hdq : dq_wf now0 (default [] (ue !! uid))).
  { destruct (ue !! uid) as [dq|] eqn:E; cbn; [eauto|apply dq_wf_nil]. }
  destruct (limiter_step_wf now0 now _ Hle Hdq) as [H1 H2].
  split.
  - intros u dq. destruct (decide (uid = u)) as [->|Hne].
    + rewrite lookup_insert_eq. intros [= <-]. exact H1.
    + rewrite lookup_insert_ne by assumption. intros Hu.
      eapply dq_wf_mono; [exact Hle|eauto].
  - rewrite lookup_insert_eq. exact H2.
Qed.

Lemma limiter_run_window uid now : forall calls now0 ue,
  ue_wf now0 ue ->
  Sorted Z.le (now0 :: map snd (calls ++ [(uid, now)])) ->
  window_ok now (default [] (limiter_run (calls ++ [(uid, now)]) ue !! uid)).
Proof.
  induction calls as [|[u t] r IH]; intros now0 ue Hwf Hs.
  - cbn in Hs |- *. apply Sorted_inv in Hs as [_ Hhd]. apply HdRel_inv in Hhd.
    apply (rate_limited_wf now0 now uid ue Hhd Hwf).
  - cbn [app map snd] in Hs. apply Sorted_inv in Hs as [Hs Hhd]. apply HdRel_inv in Hhd.
    cbn [app limiter_run fold_left]. apply (IH t); [|exact Hs].
    apply (rate_limited_wf now0 t u ue Hhd Hwf).
Qed.

Lemma popleft_old_length now dq :
  (List.length (popleft_old now dq) <= List.length dq)%nat.
Proof.
  induction dq as [|t r IH]; cbn [popleft_old]; [lia|].
  destruct (now - t >? RL_WINDOW * usec); cbn [List.length]; lia.
Qed.

(** The bound on the length needs nothing of the clock. *)
Lemma rate_limited_bounded uid now ue :
  (forall u dq, ue !! u = Some dq -> Z.of_nat (List.length dq) <= RL_LIMIT) ->
  forall u dq, (rate_limited uid now ue).2 !! u = Some dq ->
               Z.of_nat (List.length dq) <= RL_LIMIT.
Proof.
  intros Hb u dq. rewrite rate_limited_step. cbn [snd].
  destruct (decide (uid = u)) as [->|Hne].
  - rewrite lookup_insert_eq. intros [= <-].
    assert (Hold : Z.of_nat (List.length (default [] (ue !! u))) <= RL_LIMIT).
    { destruct (ue !! u) as [dq0|] eqn:E; cbn [default]; [eauto|]. unfold RL_LIMIT. cbn. lia. }
    pose proof (popleft_old_length now (default [] (ue !! u))) as Hlen.
    unfold limiter_step. destruct (Z.of_nat _ >=? RL_LIMIT) eqn:E; cbn [snd].
    + lia.
    + rewrite length_app. cbn [List.length]. lia.
  - rewrite lookup_insert_ne by assumption. apply Hb.
Qed.

Lemma limiter_run_bounded : forall calls ue,
  (forall u dq, ue !! u = Some dq -> Z.of_nat (List.length dq) <= RL_LIMIT) ->
  forall u dq, limiter_run calls ue !! u = Some dq ->
               Z.of_nat (List.length dq) <= RL_LIMIT.
Proof.
  induction calls as [|[u' t] r IH]; intros ue Hb; [exact Hb|].
  cbn [limiter_run fold_left fst snd]. apply IH. apply rate_limited_bounded. exact Hb.
Qed.

(** [C9] From the empty [user_events], after any sequence of calls the deque
    of the identity just served holds at most [RL_LIMIT] timestamps; and
    when the clock readings of the calls never step back, every timestamp in
    it satisfies [now - t <= RL_WINDOW]. *)
Theorem rate_window_invariant (calls : list (Z * Z)) (uid now : Z) :
  Z.of_nat (List.length (default [] (limiter_run (calls ++ [(uid, now)]) ∅ !! uid)))
    <= RL_LIMIT /\
  (Sorted Z.le (map snd (calls ++ [(uid, now)])) ->
   Forall (fun t => now - t <= RL_WINDOW * usec)
     (default [] (limiter_run (calls ++ [(uid, now)]) ∅ !! uid))).
Proof.
  split.
  - destruct (limiter_run (calls ++ [(uid, now)]) ∅ !! uid) as [dq|] eqn:E; cbn [default].
    + apply (limiter_run_bounded (calls ++ [(uid, now)]) ∅) with (u := uid); [|exact E].
      intros u dq0. rewrite lookup_empty. discriminate.
    + unfold RL_LIMIT. cbn. lia.
  - intros Hs.
    set (t0 := hd now (map snd (calls ++ [(uid, now)]))).
    apply (limiter_run_window uid now calls t0).
    + intros u dq. rewrite lookup_empty. discriminate.
    + subst t0. destruct (map snd (calls ++ [(uid, now)])) as [|a l] eqn:E.
      * destruct calls; discriminate.
      * cbn [hd]. constructor; [exact Hs|]. constructor. lia.
Qed.

(** ** The cached lookups *)

Lemma fetches_app tr1 tr2 : fetches (tr1 ++ tr2) = (fetches tr1 + fetches tr2)%nat.
Proof.
  induction tr1 as [|e r IH]; [reflexivity|].
  destruct e; cbn; rewrite IH; reflexivity.
Qed.

(** Both lookups are one cache-or-fetch: a live entry is returned as it is;
    otherwise the request goes out, and only an answer that arrives is
    stored, with the expiry [now + CACHE_TTL_SECONDS]. *)
Lemma lookup_unfold s env title w :
  api_key s <> "" ->
  lookup s env title w =
  match live_value (cache w !! cache_key s title) (read_time s env) with
  | Some v => (Ret v, w)
  | None =>
      match fetch_outcome s env with
      | Ret data =>
          (Ret data,
           {| cache := <[cache_key s title :=
                          {| value := data;
                             expiry := read_time s env + CACHE_TTL_SECONDS cfg * usec |}]>
                       (cache w);
              user_events := user_events w;
              trace := trace w ++ [request s title] |})
      | Raise e =>
          (Raise e, {| cache := cache w; user_events := user_events w;
                       trace := trace w ++ [request s title] |})
      end
  end.
Proof.
  intros Hkey. apply String.eqb_neq in Hkey.
  destruct s; cbn [lookup api_key cache_key read_time fetch_outcome request] in *;
    [unfold tmdb_search|unfold omdb_lookup]; rewrite Hkey;
    unfold bind, cache_get, http_get_json, bind, emit, lift, cache_set, ret;
    (destruct (live_value _ _); [reflexivity|]);
    [destruct (tmdb_http env)|destruct (omdb_http env)]; reflexivity.
Qed.

Lemma lookup_unconfigured s env title w :
  api_key s = "" -> lookup s env title w = (Ret PNone, w).
Proof.
  intros Hkey. apply String.eqb_eq in Hkey.
  destruct s; cbn [lookup api_key] in *;
    [unfold tmdb_search|unfold omdb_lookup]; rewrite Hkey; reflexivity.
Qed.

Lemma request_fetches s title : fetches [request s title] = 1%nat.
Proof. destruct s; reflexivity. Qed.

(** A lookup sends at most one request, and touches nothing but the cache
    and the trace. *)
Lemma lookup_frame s env title w :
  user_events (lookup s env title w).2 = user_events w /\
  (trace (lookup s env title w).2 = trace w \/
   trace (lookup s env title w).2 = trace w ++ [request s title]).
Proof.
  destruct (String.eqb_spec (api_key s) "") as [Hk|Hk].
  - rewrite lookup_unconfigured by assumption. auto.
  - rewrite lookup_unfold by assumption.
    destruct (live_value _ _); [auto|]. destruct (fetch_outcome s env); cbn; auto.
Qed.

(** [C3] For each lookup that is configured: a live entry (expiry after the
    clock reading of the call) is returned without any request; two calls
    for one key, the second before the first's reading plus the TTL, send at
    most one request between them when the first returns; and a call at or
    after that instant sends a request again. *)
Theorem live_entry_skips_fetch (s : Service) :
  api_key s <> "" ->
  (forall env title w ci,
      cache w !! cache_key s title = Some ci ->
      read_time s env < expiry ci ->
      lookup s env title w = (Ret (value ci), w)) /\
  (forall env1 env2 title1 title2 w0 v1 w1,
      cache_key s title1 = cache_key s title2 ->
      lookup s env1 title1 w0 = (Ret v1, w1) ->
      read_time s env2 < read_time s env1 + CACHE_TTL_SECONDS cfg * usec ->
      (fetches (trace (lookup s env2 title2 w1).2) <= fetches (trace w0) + 1)%nat) /\
  (forall env1 env3 title1 title3 w0 v1 w1,
      cache_key s title1 = cache_key s title3 ->
      lookup s env1 title1 w0 = (Ret v1, w1) ->
      fetches (trace w1) = S (fetches (trace w0)) ->
      read_time s env1 + CACHE_TTL_SECONDS cfg * usec <= read_time s env3 ->
      fetches (trace (lookup s env3 title3 w1).2) = S (fetches (trace w1))).
Proof.
  intros Hkey. split; [|split].
  - intros env title w ci Hci Hlive. rewrite lookup_unfold by assumption.
    rewrite Hci. cbn [live_value].
    destruct (expiry ci >? read_time s env) eqn:E; [reflexivity|lia].
  - intros env1 env2 title1 title2 w0 v1 w1 Hsame H1 Hin.
    rewrite lookup_unfold in H1 by assumption.
    destruct (live_value (cache w0 !! cache_key s title1) (read_time s env1)) eqn:E1.
    + (* the first call was a hit: the second sends one request at most *)
      injection H1 as _ <-.
      destruct (lookup_frame s env2 title2 w0) as [_ [-> | ->]]; [lia|].
      rewrite fetches_app, request_fetches. lia.
    + (* the first call fetched: its entry is still live *)
      destruct (fetch_outcome s env1); [|discriminate].
      injection H1 as _ <-.
      rewrite lookup_unfold by assumption. cbn [cache trace].
      rewrite <- Hsame, lookup_insert_eq. cbn [live_value expiry value].
      destruct (_ >? read_time s env2) eqn:E2; [|lia].
      cbn [snd trace]. rewrite fetches_app, request_fetches. lia.
  - intros env1 env3 title1 title3 w0 v1 w1 Hsame H1 Hfetched Hlate.
    rewrite lookup_unfold in H1 by assumption.
    destruct (live_value (cache w0 !! cache_key s title1) (read_time s env1)) eqn:E1.
    + injection H1 as _ <-. lia.
    + destruct (fetch_outcome s env1); [|discriminate].
      injection H1 as _ <-.
      rewrite lookup_unfold by assumption. cbn [cache trace].
      rewrite <- Hsame, lookup_insert_eq. cbn [live_value expiry value].
      destruct (_ >? read_time s env3) eqn:E3; [lia|].
      destruct (fetch_outcome s env3); cbn [snd trace];
        rewrite (fetches_app (trace w0 ++ _)), request_fetches; lia.
Qed.


(** ** The handler *)

Lemma log_search_run env uid q w :
  log_search env uid q w = (Ret tt, add_events (audit_events env uid q) w).
Proof.
  destruct w as [c ue tr].
  unfold log_search, audit_events, add_events, bind, emit, ret; cbn.
  destruct (db cfg); [|rewrite app_nil_r; reflexivity].
  destruct (db_bool env) as [[|]|]; cbn; rewrite ?app_nil_r; try reflexivity.
  destruct (db_insert env); cbn; rewrite <- ?app_assoc; reflexivity.
Qed.

(** A message that passes the limiter goes on to the lookups. *)
Lemma text_handler_passed env upd w msg :
  (rate_limited (uid_of upd) (now_rl env) (user_events w)).1 = false ->
  message upd = Some msg ->
  text_handler env upd w = lookup_and_reply env upd (query_of msg) (ready env upd msg w).
Proof.
  intros Hpass Hmsg. unfold text_handler, bind, on_user_events.
  unfold ready, limited_world.
  destruct (rate_limited (uid_of upd) (now_rl env) (user_events w)) as [b ue].
  cbn [fst snd] in *. subst b. rewrite Hmsg. unfold ret.
  rewrite log_search_run. reflexivity.
Qed.

(** A message that the limiter rejects gets the notice and nothing else. *)
Lemma text_handler_limited env upd w :
  (rate_limited (uid_of upd) (now_rl env) (user_events w)).1 = true ->
  text_handler env upd w =
  send_message env upd "⏳ Too many requests. Slow down." None (limited_world env upd w).
Proof.
  intros Hlim. unfold text_handler, bind, on_user_events, limited_world.
  destruct (rate_limited (uid_of upd) (now_rl env) (user_events w)) as [b ue].
  cbn [fst snd] in *. subst b. reflexivity.
Qed.

(** What a lookup returns depends on the world through the cache entry of
    its key only. *)
Lemma lookup_result_entry s env title w w' :
  cache w !! cache_key s title = cache w' !! cache_key s title ->
  (lookup s env title w).1 = (lookup s env title w').1.
Proof.
  intros Hc. destruct (String.eqb_spec (api_key s) "") as [Hk|Hk].
  - rewrite !lookup_unconfigured by assumption. reflexivity.
  - rewrite !lookup_unfold by assumption. rewrite Hc.
    destruct (live_value _ _); [reflexivity|]. destruct (fetch_outcome s env); reflexivity.
Qed.

Lemma lookup_result_cache s env title w w' :
  cache w = cache w' -> (lookup s env title w).1 = (lookup s env title w').1.
Proof. intros Hc. apply lookup_result_entry. rewrite Hc. reflexivity. Qed.

(** The Primary lookup leaves the entries of the Secondary alone. *)
Lemma secondary_entry_untouched env title title' w :
  cache (tmdb_search env title w).2 !! cache_key Secondary title'
  = cache w !! cache_key Secondary title'.
Proof.
  change (tmdb_search env title w) with (lookup Primary env title w).
  destruct (String.eqb_spec (api_key Primary) "") as [Hk|Hk].
  - rewrite lookup_unconfigured by assumption. reflexivity.
  - rewrite lookup_unfold by assumption.
    destruct (live_value _ _); [reflexivity|].
    destruct (fetch_outcome Primary env); [|reflexivity].
    cbn [snd cache]. apply lookup_insert_ne. cbn. discriminate.
Qed.

(** The two reply blocks are the spec's adapters followed by its Render. *)
Lemma reply_tmdb_render env upd q info results top w :
  py_item info "results" = Ret results ->
  py_item0 results = Ret top ->
  reply_tmdb env upd q info w =
  (let! r := lift (primary_result q top) in render env upd r) w.
Proof.
  intros Hres Htop. unfold reply_tmdb, primary_result, bind, lift.
  rewrite Hres, Htop.
  destruct (py_get top "title" PNone) as [t|]; cbn [res_bind]; [|reflexivity].
  destruct (py_get top "release_date" PNone) as [rd|]; cbn [res_bind]; [|reflexivity].
  destruct (py_slice4 (py_or rd (PStr ""))) as [year|]; cbn [res_bind]; [|reflexivity].
  destruct (py_get top "vote_average" (PStr "N/A")) as [rating|]; cbn [res_bind]; [|reflexivity].
  destruct (py_get top "poster_path" PNone) as [poster|]; cbn [res_bind]; [|reflexivity].
  unfold render; cbn. destruct (truthy poster); reflexivity.
Qed.

Lemma reply_omdb_render env upd om w :
  reply_omdb env upd om w = (let! r := lift (secondary_result om) in render env upd r) w.
Proof.
  unfold reply_omdb, secondary_result, bind, lift.
  destruct (py_get om "Poster" PNone) as [poster|]; cbn [res_bind]; [|reflexivity].
  destruct (py_get om "Title" (PStr "?")) as [t|]; cbn [res_bind]; [|reflexivity].
  destruct (py_get om "Year" (PStr "")) as [y|]; cbn [res_bind]; [|reflexivity].
  destruct (py_get om "imdbRating" (PStr "N/A")) as [rating|]; cbn [res_bind]; [|reflexivity].
  unfold render; cbn. destruct (truthy poster && negb (py_eq_str poster "N/A")); reflexivity.
Qed.

(** The shape of the world after a lookup. *)
Lemma lookup_world s env title w :
  exists evs,
    (evs = [] \/ evs = [request s title]) /\
    trace (lookup s env title w).2 = trace w ++ evs /\
    user_events (lookup s env title w).2 = user_events w.
Proof.
  destruct (lookup_frame s env title w) as [Hue [Htr|Htr]].
  - exists []. rewrite app_nil_r. auto.
  - exists [request s title]. auto.
Qed.

(** When the primary answer holds a non-empty [results] list, the reply is
    made from its first element. *)
Lemma lookup_and_reply_primary env upd q w d top rest :
  (tmdb_search env q w).1 = Ret (PDict d) ->
  assoc "results" d = Some (PList (top :: rest)) ->
  lookup_and_reply env upd q w =
  (let! r := lift (primary_result q top) in render env upd r) (tmdb_search env q w).2.
Proof.
  intros Hinfo Hres. unfold lookup_and_reply. unfold bind at 1.
  destruct (tmdb_search env q w) as [r w3]. cbn [fst snd] in *. subst r.
  assert (Hd : truthy (PDict d) = true) by (destruct d; [discriminate|reflexivity]).
  unfold bind at 1. unfold lift at 1. unfold and_get. rewrite Hd.
  cbn [py_get]. rewrite Hres. cbn [default truthy].
  apply (reply_tmdb_render env upd q (PDict d) (PList (top :: rest)) top).
  - cbn. rewrite Hres. reflexivity.
  - reflexivity.
Qed.

Lemma render_world env upd r w :
  exists evs,
    trace (render env upd r w).2 = trace w ++ evs /\
    Forall (fun e => is_send e = true) evs /\
    (List.length evs <= 1)%nat /\
    user_events (render env upd r w).2 = user_events w.
Proof.
  unfold render, send_photo, send_message, chat_id_of, bind, emit, lift, ret, raise.
  destruct (poster_url r); destruct (effective_chat upd); cbn;
    try (exists []; rewrite app_nil_r; repeat split; [constructor|cbn; lia]);
    eexists [_]; repeat split; try (repeat constructor); cbn; lia.
Qed.

Lemma audit_events_quiet env uid q :
  Forall (fun e => is_omdb_request e = false /\ is_send e = false) (audit_events env uid q).
Proof.
  unfold audit_events. destruct (db cfg); [|constructor].
  destruct (db_bool env) as [[|]|]; [|constructor|repeat constructor].
  destruct (db_insert env); repeat constructor.
Qed.

Lemma send_not_omdb e : is_send e = true -> is_omdb_request e = false.
Proof. destruct e; cbn; congruence. Qed.

(** The trace of a run that replies from the primary answer. *)
Lemma primary_reply_trace env upd msg w (pr : Res LookupResult) :
  exists evs,
    trace ((let! r := lift pr in render env upd r)
             (tmdb_search env (query_of msg) (ready env upd msg w)).2).2
      = trace w ++ evs /\
    Forall (fun e => is_omdb_request e = false) evs.
Proof.
  destruct (lookup_world Primary env (query_of msg) (ready env upd msg w))
    as (evs1 & Hevs1 & Htr1 & _).
  cbn [lookup] in Htr1.
  assert (Hq1 : Forall (fun e => is_omdb_request e = false)
                  (audit_events env (uid_of upd) (query_of msg) ++ evs1)).
  { apply Forall_app. split.
    - eapply Forall_impl; [apply audit_events_quiet|]. cbn. tauto.
    - destruct Hevs1 as [-> | ->]; repeat constructor. }
  unfold bind, lift. destruct pr as [r|e].
  - destruct (render_world env upd r (tmdb_search env (query_of msg) (ready env upd msg w)).2)
      as (evs2 & Htr2 & Hsend & _ & _).
    exists ((audit_events env (uid_of upd) (query_of msg) ++ evs1) ++ evs2).
    split.
    + rewrite Htr2, Htr1. cbn [ready add_events limited_world trace].
      rewrite <- !app_assoc. reflexivity.
    + apply Forall_app. split; [exact Hq1|].
      eapply Forall_impl; [exact Hsend|]. apply send_not_omdb.
  - exists (audit_events env (uid_of upd) (query_of msg) ++ evs1).
    split; [|exact Hq1].
    cbn [snd]. rewrite Htr1. cbn [ready add_events limited_world trace].
    rewrite <- !app_assoc. reflexivity.
Qed.

Lemma text_handler_primary env upd w msg d top rest :
  (rate_limited (uid_of upd) (now_rl env) (user_events w)).1 = false ->
  message upd = Some msg ->
  (tmdb_search env (query_of msg) w).1 = Ret (PDict d) ->
  assoc "results" d = Some (PList (top :: rest)) ->
  text_handler env upd w =
    (let! r := lift (primary_result (query_of msg) top) in render env upd r)
      (tmdb_search env (query_of msg) (ready env upd msg w)).2.
Proof.
  intros Hpass Hmsg Hinfo Hres.
  rewrite (text_handler_passed env upd w msg Hpass Hmsg).
  apply (lookup_and_reply_primary env upd (query_of msg) _ d top rest); [|exact Hres].
  rewrite <- Hinfo.
  apply (lookup_result_cache Primary env (query_of msg) (ready env upd msg w) w).
  reflexivity.
Qed.

Lemma primary_result_source q top r :
  primary_result q top = Ret r ->
  rating_source r = "TMDB" /\
  forall p, poster_url r = Some p ->
    exists poster,
      py_get top "poster_path" PNone = Ret poster /\
      p = PStr ("https://image.tmdb.org/t/p/w500" +:+ py_str rt poster).
Proof.
  unfold primary_result.
  destruct (py_get top "title" PNone); cbn [res_bind]; [|discriminate].
  destruct (py_get top "release_date" PNone) as [rd|]; cbn [res_bind]; [|discriminate].
  destruct (py_slice4 _); cbn [res_bind]; [|discriminate].
  destruct (py_get top "vote_average" _); cbn [res_bind]; [|discriminate].
  destruct (py_get top "poster_path" _) as [poster|]; cbn [res_bind]; [|discriminate].
  intros [= <-]. split; [reflexivity|]. cbn [poster_url].
  destruct (truthy poster); [|discriminate].
  intros p [= <-]. exists poster. split; reflexivity.
Qed.

(** [C2] When the Primary lookup answers with a non-empty [results] list, no
    request to the Secondary service is in the trace, whatever the
    Secondary's configuration and answer; and the reply is made from the
    first element alone: for an object [td] whose date can be sliced, the
    handler sends the photo at the base URL plus [poster_path] (or a text
    when there is no poster) with the caption
    ["🎬 *<title>* (<year>)\n⭐ <rating> / 10 (TMDB)"], in Markdown mode. *)
Theorem primary_match_wins env upd w msg d top rest :
  (rate_limited (uid_of upd) (now_rl env) (user_events w)).1 = false ->
  message upd = Some msg ->
  (tmdb_search env (query_of msg) w).1 = Ret (PDict d) ->
  assoc "results" d = Some (PList (top :: rest)) ->
  (exists evs,
      trace (text_handler env upd w).2 = trace w ++ evs /\
      Forall (fun e => is_omdb_request e = false) evs) /\
  (forall td chat year,
      top = PDict td ->
      effective_chat upd = Some chat ->
      py_slice4 (py_or (default PNone (assoc "release_date" td)) (PStr "")) = Ret year ->
      let title := py_or (default PNone (assoc "title" td)) (PStr (query_of msg)) in
      let rating := default (PStr "N/A") (assoc "vote_average" td) in
      let poster := default PNone (assoc "poster_path" td) in
      let caption :=
        "🎬 *" +:+ py_str rt title +:+ "* (" +:+ py_str rt year +:+ ")" +:+ nl +:+
        "⭐ " +:+ py_str rt rating +:+ " / 10 (TMDB)" in
      text_handler env upd w =
      (send env,
       add_events
         [if truthy poster
          then SendPhoto chat
                 (PStr ("https://image.tmdb.org/t/p/w500" +:+ py_str rt poster))
                 caption Markdown
          else SendMessage chat caption Markdown]
         (tmdb_search env (query_of msg) (ready env upd msg w)).2)).
Proof.
  intros Hpass Hmsg Hinfo Hres.
  pose proof (text_handler_primary env upd w msg d top rest Hpass Hmsg Hinfo Hres) as Heq.
  split.
  - rewrite Heq. apply primary_reply_trace.
  - intros td chat year -> Hchat Hyear title rating poster caption.
    rewrite Heq. unfold bind, lift, primary_result.
    cbn [py_get res_bind]. rewrite Hyear. cbn [res_bind].
    unfold render, send_photo, send_message, chat_id_of, bind, emit, lift, ret.
    cbn [poster_url lr_title lr_year lr_rating rating_source].
    subst title rating poster caption. rewrite Hchat.
    destruct (truthy (default PNone (assoc "poster_path" td))); reflexivity.
Qed.

(** The events between the arrival of a message and the reply. *)
Lemma primary_stage_trace env upd msg w :
  exists pre,
    trace (tmdb_search env (query_of msg) (ready env upd msg w)).2 = trace w ++ pre /\
    Forall (fun e => is_send e = false) pre /\
    Forall (fun e => is_omdb_request e = false) pre.
Proof.
  destruct (lookup_world Primary env (query_of msg) (ready env upd msg w))
    as (evs1 & Hevs1 & Htr1 & _).
  cbn [lookup] in Htr1.
  exists (audit_events env (uid_of upd) (query_of msg) ++ evs1). split; [|split].
  - rewrite Htr1. cbn [ready add_events limited_world trace].
    rewrite <- app_assoc. reflexivity.
  - apply Forall_app. split.
    + eapply Forall_impl; [apply audit_events_quiet|]. cbn. tauto.
    + destruct Hevs1 as [-> | ->]; repeat constructor.
  - apply Forall_app. split.
    + eapply Forall_impl; [apply audit_events_quiet|]. cbn. tauto.
    + destruct Hevs1 as [-> | ->]; repeat constructor.
Qed.

(** [C7] For the query "Jailer" answered by the Primary service
    with the payload of the scenario, the handler sends one reply: the photo
    [https://image.tmdb.org/t/p/w500/abc.jpg] with the caption
    ["🎬 *Jailer* (2023)\n⭐ 7.8 / 10 (TMDB)"], in Markdown mode. *)
Theorem jailer_end_to_end env upd w msg chat :
  (rate_limited (uid_of upd) (now_rl env) (user_events w)).1 = false ->
  message upd = Some msg ->
  query_of msg = "Jailer" ->
  effective_chat upd = Some chat ->
  (tmdb_search env "Jailer" w).1 = Ret jailer_payload ->
  exists pre,
    (text_handler env upd w).1 = send env /\
    trace (text_handler env upd w).2
      = trace w ++ pre ++ [SendPhoto chat jailer_photo jailer_caption Markdown] /\
    Forall (fun e => is_send e = false) pre.
Proof.
  intros Hpass Hmsg Hq Hchat Hinfo.
  destruct (primary_stage_trace env upd msg w) as (pre & Htr & Hpre & _).
  exists pre.
  rewrite <- Hq in Hinfo. unfold jailer_payload in Hinfo.
  rewrite (text_handler_primary env upd w msg _ _ [] Hpass Hmsg Hinfo eq_refl).
  rewrite Hq in *.
  unfold bind, lift, primary_result. cbn [py_get assoc String.eqb Ascii.eqb Bool.eqb
    default res_bind py_or truthy negb py_slice4].
  unfold render, send_photo, send_message, chat_id_of, bind, emit, lift, ret.
  cbn. rewrite Hchat. cbn. rewrite Htr, <- app_assoc.
  split; [reflexivity|]. split; [reflexivity|exact Hpre].
Qed.

(** When the primary answer holds no results, the Secondary is consulted. *)
Lemma text_handler_secondary env upd w msg info r :
  (rate_limited (uid_of upd) (now_rl env) (user_events w)).1 = false ->
  message upd = Some msg ->
  (tmdb_search env (query_of msg) w).1 = Ret info ->
  and_get info "results" = Ret r ->
  truthy r = false ->
  text_handler env upd w =
  omdb_and_reply env upd (query_of msg)
    (tmdb_search env (query_of msg) (ready env upd msg w)).2.
Proof.
  intros Hpass Hmsg Hinfo Hr Hfalsy.
  rewrite (text_handler_passed env upd w msg Hpass Hmsg).
  pose proof (lookup_result_cache Primary env (query_of msg) (ready env upd msg w) w eq_refl)
    as Hsame.
  cbn [lookup] in Hsame. rewrite Hinfo in Hsame.
  unfold lookup_and_reply. unfold bind at 1.
  destruct (tmdb_search env (query_of msg) (ready env upd msg w)) as [i w3].
  cbn [fst snd] in *. subst i.
  unfold bind at 1. unfold lift at 1. rewrite Hr, Hfalsy. reflexivity.
Qed.

Lemma text_handler_malformed env upd w msg info e :
  (rate_limited (uid_of upd) (now_rl env) (user_events w)).1 = false ->
  message upd = Some msg ->
  (tmdb_search env (query_of msg) w).1 = Ret info ->
  and_get info "results" = Raise e ->
  text_handler env upd w =
  (Raise e, (tmdb_search env (query_of msg) (ready env upd msg w)).2).
Proof.
  intros Hpass Hmsg Hinfo Hr.
  rewrite (text_handler_passed env upd w msg Hpass Hmsg).
  pose proof (lookup_result_cache Primary env (query_of msg) (ready env upd msg w) w eq_refl)
    as Hsame.
  cbn [lookup] in Hsame. rewrite Hinfo in Hsame.
  unfold lookup_and_reply. unfold bind at 1.
  destruct (tmdb_search env (query_of msg) (ready env upd msg w)) as [i w3].
  cbn [fst snd] in *. subst i.
  unfold bind at 1. unfold lift at 1. rewrite Hr. reflexivity.
Qed.

Lemma omdb_and_reply_match env upd q w d :
  (omdb_lookup env q w).1 = Ret (PDict d) ->
  assoc "Response" d = Some (PStr "True") ->
  omdb_and_reply env upd q w =
  (let! r := lift (secondary_result (PDict d)) in render env upd r) (omdb_lookup env q w).2.
Proof.
  intros Hom Hresp. unfold omdb_and_reply. unfold bind at 1.
  destruct (omdb_lookup env q w) as [r w4]. cbn [fst snd] in *. subst r.
  assert (Hd : truthy (PDict d) = true) by (destruct d; [discriminate|reflexivity]).
  unfold bind at 1. unfold lift at 1. unfold and_get. rewrite Hd.
  cbn [py_get]. rewrite Hresp. cbn [default py_eq_str String.eqb Ascii.eqb Bool.eqb].
  apply reply_omdb_render.
Qed.

(** [C8] A Secondary match whose [Poster] is the string "N/A" is
    answered with the caption as a text message, not a photo; and for a
    Primary match, a poster in the reply is the fixed image base URL followed
    by the [poster_path] of the first result. *)
Theorem poster_resolution :
  (forall env upd w msg info r d,
      (rate_limited (uid_of upd) (now_rl env) (user_events w)).1 = false ->
      message upd = Some msg ->
      (tmdb_search env (query_of msg) w).1 = Ret info ->
      and_get info "results" = Ret r ->
      truthy r = false ->
      (omdb_lookup env (query_of msg) w).1 = Ret (PDict d) ->
      assoc "Response" d = Some (PStr "True") ->
      assoc "Poster" d = Some (PStr "N/A") ->
      text_handler env upd w =
      send_message env upd
        (caption_of (default (PStr "?") (assoc "Title" d))
                    (default (PStr "") (assoc "Year" d))
                    (default (PStr "N/A") (assoc "imdbRating" d)) "IMDB")
        Markdown
        (omdb_lookup env (query_of msg)
           (tmdb_search env (query_of msg) (ready env upd msg w)).2).2) /\
  (forall env upd w msg d top rest,
      (rate_limited (uid_of upd) (now_rl env) (user_events w)).1 = false ->
      message upd = Some msg ->
      (tmdb_search env (query_of msg) w).1 = Ret (PDict d) ->
      assoc "results" d = Some (PList (top :: rest)) ->
      text_handler env upd w =
        (let! r := lift (primary_result (query_of msg) top) in render env upd r)
          (tmdb_search env (query_of msg) (ready env upd msg w)).2 /\
      forall r p,
        primary_result (query_of msg) top = Ret r ->
        poster_url r = Some p ->
        exists poster,
          py_get top "poster_path" PNone = Ret poster /\
          p = PStr ("https://image.tmdb.org/t/p/w500" +:+ py_str rt poster)).
Proof.
  split.
  - intros env upd w msg info r d Hpass Hmsg Hinfo Hr Hfalsy Hom Hresp Hposter.
    rewrite (text_handler_secondary env upd w msg info r Hpass Hmsg Hinfo Hr Hfalsy).
    rewrite (omdb_and_reply_match env upd (query_of msg) _ d); [|
      |exact Hresp].
    + unfold bind, lift, secondary_result. cbn [py_get res_bind].
      rewrite Hposter. cbn. reflexivity.
    + rewrite <- Hom.
      apply (lookup_result_entry Secondary env (query_of msg)).
      cbn [ready add_events limited_world cache].
      rewrite secondary_entry_untouched. reflexivity.
  - intros env upd w msg d top rest Hpass Hmsg Hinfo Hres.
    split; [apply (text_handler_primary env upd w msg d top rest); assumption|].
    intros r p Hr Hp. apply (primary_result_source _ _ _ Hr). exact Hp.
Qed.

(** [C1] A failing lookup is not absorbed.  For a message that
    passed the limiter: when the Primary request fails, [text_handler] raises
    that exception with the request as the last event, so the Secondary is
    not consulted and nothing is sent; when the Primary answer holds no
    results and the Secondary request fails, [text_handler] raises likewise
    with nothing sent; and when reading [results] off the Primary answer
    raises (an answer that is truthy but not an object), that exception
    leaves [text_handler] too. *)
Theorem lookup_failure_raises env upd w msg e :
  (rate_limited (uid_of upd) (now_rl env) (user_events w)).1 = false ->
  message upd = Some msg ->
  (api_key Primary <> "" ->
   live_value (cache w !! cache_key Primary (query_of msg)) (now_tmdb env) = None ->
   tmdb_http env = Raise e ->
   text_handler env upd w =
   (Raise e, add_events [request Primary (query_of msg)] (ready env upd msg w))) /\
  (forall info r,
      (tmdb_search env (query_of msg) w).1 = Ret info ->
      and_get info "results" = Ret r ->
      truthy r = false ->
      api_key Secondary <> "" ->
      live_value (cache w !! cache_key Secondary (query_of msg)) (now_omdb env) = None ->
      omdb_http env = Raise e ->
      text_handler env upd w =
      (Raise e, add_events [request Secondary (query_of msg)]
                  (tmdb_search env (query_of msg) (ready env upd msg w)).2)) /\
  (forall info,
      (tmdb_search env (query_of msg) w).1 = Ret info ->
      and_get info "results" = Raise e ->
      text_handler env upd w =
      (Raise e, (tmdb_search env (query_of msg) (ready env upd msg w)).2)).
Proof.
  intros Hpass Hmsg. split; [|split].
  - intros Hkey Hmiss Hfail.
    rewrite (text_handler_passed env upd w msg Hpass Hmsg).
    unfold lookup_and_reply. unfold bind at 1.
    change (tmdb_search env (query_of msg) (ready env upd msg w))
      with (lookup Primary env (query_of msg) (ready env upd msg w)).
    rewrite lookup_unfold by assumption.
    cbn [ready add_events limited_world cache read_time fetch_outcome].
    rewrite Hmiss, Hfail. reflexivity.
  - intros info r Hinfo Hr Hfalsy Hkey Hmiss Hfail.
    rewrite (text_handler_secondary env upd w msg info r Hpass Hmsg Hinfo Hr Hfalsy).
    unfold omdb_and_reply. unfold bind at 1.
    change (omdb_lookup env (query_of msg) ?w')
      with (lookup Secondary env (query_of msg) w').
    rewrite lookup_unfold by assumption.
    rewrite secondary_entry_untouched.
    cbn [ready add_events limited_world cache read_time fetch_outcome].
    rewrite Hmiss, Hfail. reflexivity.
  - intros info Hinfo Hr.
    apply (text_handler_malformed env upd w msg info e Hpass Hmsg Hinfo Hr).
Qed.

(** *** Frames *)

Lemma keeps_ue_ret {A} (a : A) : keeps_ue (ret a).
Proof. intros w. reflexivity. Qed.

Lemma keeps_ue_raise {A} e : keeps_ue (@raise A e).
Proof. intros w. reflexivity. Qed.

Lemma keeps_ue_lift {A} (r : Res A) : keeps_ue (lift r).
Proof. intros w. reflexivity. Qed.

Lemma keeps_ue_emit e : keeps_ue (emit e).
Proof. intros w. reflexivity. Qed.

Lemma keeps_ue_bind {A B} (c : M A) (k : A -> M B) :
  keeps_ue c -> (forall a, keeps_ue (k a)) -> keeps_ue (bind c k).
Proof.
  intros Hc Hk w. unfold bind. specialize (Hc w).
  destruct (c w) as [[a|e] w1]; cbn [snd] in *; [|exact Hc].
  rewrite (Hk a w1). exact Hc.
Qed.

Lemma keeps_ue_lookup s env title : keeps_ue (lookup s env title).
Proof. intros w. apply lookup_frame. Qed.

Lemma keeps_ue_send_message env upd txt pm : keeps_ue (send_message env upd txt pm).
Proof.
  unfold send_message, chat_id_of.
  destruct (effective_chat upd);
    repeat first [apply keeps_ue_bind; [|intros ?] | apply keeps_ue_ret
                 | apply keeps_ue_raise | apply keeps_ue_lift | apply keeps_ue_emit].
Qed.

Lemma keeps_ue_send_photo env upd p cap pm : keeps_ue (send_photo env upd p cap pm).
Proof.
  unfold send_photo, chat_id_of.
  destruct (effective_chat upd);
    repeat first [apply keeps_ue_bind; [|intros ?] | apply keeps_ue_ret
                 | apply keeps_ue_raise | apply keeps_ue_lift | apply keeps_ue_emit].
Qed.

Ltac solve_keeps_ue :=
  repeat first
    [ apply keeps_ue_send_message | apply keeps_ue_send_photo
    | apply (keeps_ue_lookup Primary) | apply (keeps_ue_lookup Secondary)
    | apply keeps_ue_bind; [|intros ?]
    | apply keeps_ue_ret | apply keeps_ue_raise | apply keeps_ue_lift
    | apply keeps_ue_emit
    | match goal with
      | |- keeps_ue (if ?b then _ else _) => destruct b
      end ].

Lemma keeps_ue_lookup_and_reply env upd q : keeps_ue (lookup_and_reply env upd q).
Proof.
  unfold lookup_and_reply, omdb_and_reply, reply_tmdb, reply_omdb. solve_keeps_ue.
Qed.

Lemma keeps_ue_log_search env uid q : keeps_ue (log_search env uid q).
Proof. intros w. rewrite log_search_run. reflexivity. Qed.

(** [C10] An update without [effective_user] is handled exactly as one from
    the user id 0: the limiter is consulted for the identity 0, whose deque
    alone records the message, and when that window is full the message gets
    the slow-down notice like any other. *)
Theorem anonymous_sender_is_uid_0 env upd w :
  effective_user upd = None ->
  text_handler env upd w = text_handler env (with_user upd (Some 0)) w /\
  user_events (text_handler env upd w).2
    = (rate_limited 0 (now_rl env) (user_events w)).2 /\
  ((rate_limited 0 (now_rl env) (user_events w)).1 = true ->
   text_handler env upd w =
   send_message env upd "⏳ Too many requests. Slow down." None
     {| cache := cache w;
        user_events := (rate_limited 0 (now_rl env) (user_events w)).2;
        trace := trace w |}).
Proof.
  intros Hanon.
  assert (Huid : uid_of upd = 0) by (unfold uid_of; rewrite Hanon; reflexivity).
  split; [|split].
  - unfold text_handler, uid_of. rewrite Hanon. reflexivity.
  - rewrite <- Huid.
    destruct (rate_limited (uid_of upd) (now_rl env) (user_events w)).1 eqn:Hlim.
    + rewrite (text_handler_limited env upd w Hlim).
      rewrite keeps_ue_send_message. reflexivity.
    + unfold text_handler. unfold bind at 1. unfold on_user_events.
      destruct (rate_limited (uid_of upd) (now_rl env) (user_events w)) as [b ue].
      cbn [fst snd] in *. subst b.
      destruct (message upd) as [m|]; [|reflexivity].
      unfold bind at 1. unfold ret at 1.
      rewrite keeps_ue_bind; [reflexivity|apply keeps_ue_log_search|].
      intros _. apply keeps_ue_lookup_and_reply.
  - intros Hlim. rewrite <- Huid in Hlim |- *.
    apply (text_handler_limited env upd w Hlim).
Qed.

(** ** The webhook route *)

(** [C5] A request whose path token or [secret] query parameter differs from
    the configured value raises [HTTPException] with status 403 and leaves
    the world as it was: the body is not read, the update is not processed,
    no deque, cache entry or trace event is added. *)
Theorem webhook_rejects_bad_credentials
    (de_json : pyval -> Res Update) (process_update : Update -> M unit)
    (token : string) (request : Request) (w : World) :
  token <> BOT_TOKEN cfg \/
  default "" (query_secret request) <> WEBHOOK_SECRET cfg ->
  exists detail,
    (detail = "bad token" \/ detail = "bad secret") /\
    webhook de_json process_update token request w
      = (Raise (HTTPException 403 detail), w).
Proof.
  intros Hbad. unfold webhook.
  destruct (String.eqb_spec token (BOT_TOKEN cfg)) as [Htok|Htok]; cbn [negb].
  - destruct (String.eqb_spec (default "" (query_secret request)) (WEBHOOK_SECRET cfg))
      as [Hsec|Hsec]; cbn [negb].
    + destruct Hbad; contradiction.
    + exists "bad secret". split; [right; reflexivity|reflexivity].
  - exists "bad token". split; [left; reflexivity|reflexivity].
Qed.

(** ** More on the rate limiter: what a run admits *)

Lemma count_between_app a b l1 l2 :
  count_between a b (l1 ++ l2) = (count_between a b l1 + count_between a b l2)%nat.
Proof.
  induction l1 as [|t r IH]; cbn; [reflexivity|].
  rewrite IH. destruct ((a <=? t) && (t <=? b)); lia.
Qed.

Lemma count_between_le_length a b l : (count_between a b l <= List.length l)%nat.
Proof.
  induction l as [|t r IH]; cbn; [lia|].
  destruct ((a <=? t) && (t <=? b)); lia.
Qed.

Lemma count_between_below a b l :
  Forall (fun t => t < a) l -> count_between a b l = O.
Proof.
  induction 1 as [|t r Ht _ IH]; cbn; [reflexivity|].
  rewrite IH. destruct (a <=? t) eqn:E; [lia|reflexivity].
Qed.

Lemma count_between_all a b l :
  Forall (fun t => a <= t <= b) l -> count_between a b l = List.length l.
Proof.
  induction 1 as [|t r Ht _ IH]; cbn; [reflexivity|].
  rewrite IH. destruct (a <=? t) eqn:E1; [|lia]. destruct (t <=? b) eqn:E2; [reflexivity|lia].
Qed.

(** On a deque in order of arrival, the loop removes exactly the timestamps
    outside the window. *)
Lemma popleft_old_sorted_count now dq :
  StronglySorted Z.le dq ->
  Forall (fun t => t <= now) dq ->
  count_between (now - RL_WINDOW * usec) now dq = List.length (popleft_old now dq).
Proof.
  induction dq as [|t r IH]; intros Hs Hb; [reflexivity|].
  pose proof Hs as Hs0. pose proof Hb as Hb0.
  apply StronglySorted_inv in Hs as [Hs Hhd]. apply Forall_cons in Hb as [Ht Hb].
  cbn [popleft_old].
  destruct (now - t >? RL_WINDOW * usec) eqn:E.
  - rewrite <- IH by assumption. cbn [count_between].
    destruct (now - RL_WINDOW * usec <=? t) eqn:E1; [lia|reflexivity].
  - apply count_between_all. constructor; [lia|].
    rewrite Forall_forall in Hhd, Hb. apply Forall_forall. intros x Hx.
    specialize (Hhd x Hx). specialize (Hb x Hx). lia.
Qed.

Lemma history_of_nil now : history_of now [] [].
Proof.
  exists []. repeat split; try constructor; unfold RL_LIMIT; cbn; lia.
Qed.

Lemma history_of_mono now now' acc dq :
  now <= now' -> history_of now acc dq -> history_of now' acc dq.
Proof.
  intros Hle (dropped & Heq & Hold & Hs & Hb & Hl & Hc).
  exists dropped. repeat split; try assumption.
  - eapply Forall_impl; [exact Hold|]. cbn. intros; lia.
  - eapply Forall_impl; [exact Hb|]. cbn. intros; lia.
Qed.

(** One call of the identity at [now], no earlier than the reading before. *)
Lemma history_of_step now0 now acc dq :
  now0 <= now ->
  history_of now0 acc dq ->
  history_of now
    (acc ++ if (limiter_step now dq).1 then [] else [now])
    (limiter_step now dq).2.
Proof.
  intros Hle (dropped & Heq & Hold & Hs & Hb & Hl & Hc).
  destruct (popleft_old_split now dq) as (dr & Hdq & Hdr).
  assert (Hwf : dq_wf now0 dq) by (repeat split; assumption).
  pose proof (popleft_old_wf now0 now dq Hwf) as Hp.
  apply (dq_wf_mono now0 now _ Hle) in Hp. destruct Hp as (Hs1 & Hb1 & Hl1).
  assert (Hdrop : Forall (fun t => t < now - RL_WINDOW * usec) (dropped ++ dr)).
  { apply Forall_app. split; [|exact Hdr].
    eapply Forall_impl; [exact Hold|]. cbn. intros; lia. }
  assert (Hacc : acc = (dropped ++ dr) ++ popleft_old now dq).
  { rewrite Heq. rewrite Hdq at 1. rewrite <- !app_assoc. reflexivity. }
  unfold limiter_step. destruct (Z.of_nat _ >=? RL_LIMIT) eqn:E; cbn [fst snd].
  - exists (dropped ++ dr). rewrite app_nil_r.
    repeat split; assumption.
  - exists (dropped ++ dr). repeat split.
    + rewrite Hacc at 1. rewrite <- !app_assoc. reflexivity.
    + exact Hdrop.
    + apply StronglySorted_snoc; assumption.
    + apply Forall_app. split; [assumption|repeat constructor; lia].
    + rewrite length_app. cbn [List.length]. lia.
    + intros a. rewrite count_between_app. cbn [count_between].
      destruct ((a <=? now) && (now <=? a + RL_WINDOW * usec)) eqn:Ein.
      * rewrite Hacc, count_between_app.
        rewrite (count_between_below a _ (dropped ++ dr)).
        -- pose proof (count_between_le_length a (a + RL_WINDOW * usec) (popleft_old now dq)).
           lia.
        -- eapply Forall_impl; [exact Hdrop|]. cbn. intros; lia.
      * specialize (Hc a). lia.
Qed.

(** The same for a call of any identity [u'], seen from [u]. *)
Lemma history_of_call u u' now0 t ue acc0 :
  now0 <= t ->
  history_of now0 acc0 (default [] (ue !! u)) ->
  history_of t
    (acc0 ++ if (u' =? u) && negb (rate_limited u' t ue).1 then [t] else [])
    (default [] ((rate_limited u' t ue).2 !! u)).
Proof.
  intros Hle Hh. rewrite rate_limited_step. cbn [fst snd].
  destruct (Z.eqb_spec u' u) as [->|Hne]; cbn [andb].
  - rewrite lookup_insert_eq. cbn [default].
    pose proof (history_of_step now0 t acc0 _ Hle Hh) as Hstep.
    destruct (limiter_step t (default [] (ue !! u))).1; exact Hstep.
  - rewrite lookup_insert_ne by assumption. rewrite app_nil_r.
    apply (history_of_mono now0 t _ _ Hle Hh).
Qed.

Lemma history_of_run u : forall calls now0 ue acc0,
  history_of now0 acc0 (default [] (ue !! u)) ->
  Sorted Z.le (now0 :: map snd calls) ->
  exists now1,
    history_of now1 (acc0 ++ accepted u calls ue)
      (default [] (limiter_run calls ue !! u)).
Proof.
  induction calls as [|[u' t] r IH]; intros now0 ue acc0 Hh Hs.
  - exists now0. cbn. rewrite app_nil_r. exact Hh.
  - cbn [map snd] in Hs. apply Sorted_inv in Hs as [Hs Hhd]. apply HdRel_inv in Hhd.
    cbn [accepted limiter_run fold_left fst snd].
    destruct (IH t _ _ (history_of_call u u' now0 t ue acc0 Hhd Hh) Hs) as (now1 & Hfinal).
    exists now1. rewrite <- app_assoc in Hfinal. exact Hfinal.
Qed.

(** The answer to a call is read off the history. *)
Lemma decision_of_history now0 now acc dq :
  now0 <= now ->
  history_of now0 acc dq ->
  (limiter_step now dq).1
  = (RL_LIMIT <=? Z.of_nat (count_between (now - RL_WINDOW * usec) now acc)).
Proof.
  intros Hle (dropped & Heq & Hold & Hs & Hb & Hl & Hc).
  rewrite Heq, count_between_app.
  rewrite (count_between_below _ _ dropped).
  - rewrite popleft_old_sorted_count.
    + unfold limiter_step. cbn [Nat.add].
      destruct (Z.of_nat _ >=? RL_LIMIT) eqn:E; cbn [fst]; symmetry.
      * apply Z.leb_le. lia.
      * apply Z.leb_gt. lia.
    + exact Hs.
    + eapply Forall_impl; [exact Hb|]. cbn. intros; lia.
  - eapply Forall_impl; [exact Hold|]. cbn. intros; lia.
Qed.

Lemma decision_of_run u now : forall calls now0 ue acc0,
  history_of now0 acc0 (default [] (ue !! u)) ->
  Sorted Z.le (now0 :: map snd (calls ++ [(u, now)])) ->
  (rate_limited u now (limiter_run calls ue)).1
  = (RL_LIMIT <=?
       Z.of_nat (count_between (now - RL_WINDOW * usec) now (acc0 ++ accepted u calls ue))).
Proof.
  induction calls as [|[u' t] r IH]; intros now0 ue acc0 Hh Hs.
  - cbn in Hs |- *. apply Sorted_inv in Hs as [_ Hhd]. apply HdRel_inv in Hhd.
    rewrite rate_limited_step, app_nil_r. cbn [fst].
    apply (decision_of_history now0 now _ _ Hhd Hh).
  - cbn [app map snd] in Hs. apply Sorted_inv in Hs as [Hs Hhd]. apply HdRel_inv in Hhd.
    cbn [accepted limiter_run fold_left fst snd].
    rewrite app_assoc.
    apply (IH t); [|exact Hs].
    apply (history_of_call u u' now0 t ue acc0 Hhd Hh).
Qed.

(** [X1] With clock readings that never step back, [rate_limited] rejects a
    call exactly when [RL_LIMIT] or more calls of the same identity were let
    through within the [RL_WINDOW] seconds up to now: rejected calls and
    the calls of other identities do not count. *)
Theorem rejects_iff_window_full (calls : list (Z * Z)) (u now : Z) :
  Sorted Z.le (map snd (calls ++ [(u, now)])) ->
  (rate_limited u now (limiter_run calls ∅)).1
  = (RL_LIMIT <=?
       Z.of_nat (count_between (now - RL_WINDOW * usec) now (accepted u calls ∅))).
Proof.
  intros Hs.
  set (t0 := hd now (map snd (calls ++ [(u, now)]))).
  apply (decision_of_run u now calls t0 ∅ []).
  - rewrite lookup_empty. apply history_of_nil.
  - subst t0. destruct (map snd (calls ++ [(u, now)])) as [|a l] eqn:E.
    + destruct calls; discriminate.
    + cbn [hd]. constructor; [exact Hs|]. constructor. lia.
Qed.

(** [X2] With clock readings that never step back, no identity gets more
    than [RL_LIMIT] calls through in any interval of [RL_WINDOW] seconds. *)
Theorem admits_at_most_limit_per_window (calls : list (Z * Z)) (u a : Z) :
  Sorted Z.le (map snd calls) ->
  Z.of_nat (count_between a (a + RL_WINDOW * usec) (accepted u calls ∅)) <= RL_LIMIT.
Proof.
  intros Hs.
  destruct calls as [|[u0 t0] r] eqn:Ecalls.
  - cbn. unfold RL_LIMIT. lia.
  - rewrite <- Ecalls in *.
    destruct (history_of_run u calls t0 ∅ []) as (now1 & dropped & _ & _ & _ & _ & _ & Hc).
    + rewrite lookup_empty. apply history_of_nil.
    + rewrite Ecalls in *. cbn [map snd] in *. constructor; [exact Hs|]. constructor. lia.
    + apply Hc.
Qed.

(** The calls of the other identities do not change what [u] is told. *)
Lemma answers_for_dq u : forall calls ue,
  answers_for u calls ue = replay_dq (times_of u calls) (default [] (ue !! u)).
Proof.
  induction calls as [|[u' t] r IH]; intros ue; [reflexivity|].
  cbn [answers_for times_of]. rewrite IH, rate_limited_step. cbn [fst snd].
  destruct (Z.eqb_spec u' u) as [->|Hne].
  - rewrite lookup_insert_eq. reflexivity.
  - rewrite lookup_insert_ne by assumption. reflexivity.
Qed.

(** [X3] The windows are independent: in any run of calls, what an identity
    is told is what it would be told had its own calls been the only ones,
    and the deque of an identity that did not call is left as it was. *)
Theorem identities_do_not_interfere (calls : list (Z * Z)) (u : Z) (ue : gmap Z (list Z)) :
  answers_for u calls ue = (replay u (times_of u calls) ue).1 /\
  (times_of u calls = [] -> limiter_run calls ue !! u = ue !! u).
Proof.
  split.
  - rewrite answers_for_dq, replay_as_dq. reflexivity.
  - revert ue. induction calls as [|[u' t] r IH]; intros ue Hnone; [reflexivity|].
    cbn [times_of] in Hnone. cbn [limiter_run fold_left fst snd].
    destruct (Z.eqb_spec u' u) as [->|Hne]; [discriminate|].
    cbn [app] in Hnone. unfold limiter_run in IH. rewrite (IH _ Hnone).
    rewrite rate_limited_step. cbn [snd]. apply lookup_insert_ne. exact Hne.
Qed.

Lemma accepted_among_calls (P : Z -> Prop) u : forall calls ue,
  Forall P (map snd calls) -> Forall P (accepted u calls ue).
Proof.
  induction calls as [|[u' t] r IH]; intros ue Hall; [constructor|].
  cbn [map snd] in Hall. apply Forall_cons in Hall as [Ht Hall].
  cbn [accepted]. apply Forall_app. split; [|apply IH; exact Hall].
  destruct ((u' =? u) && negb (rate_limited u' t ue).1); repeat constructor. exact Ht.
Qed.

(** [X19] With clock readings that never step back, nobody stays locked
    out: a call made more than [RL_WINDOW] seconds after every earlier call
    is let through, however many calls were made or rejected before. *)
Theorem silence_reopens_window (calls : list (Z * Z)) (u now : Z) :
  Sorted Z.le (map snd (calls ++ [(u, now)])) ->
  Forall (fun t => t < now - RL_WINDOW * usec) (map snd calls) ->
  (rate_limited u now (limiter_run calls ∅)).1 = false.
Proof.
  intros Hs Hquiet.
  set (t0 := hd now (map snd (calls ++ [(u, now)]))).
  rewrite (decision_of_run u now calls t0 ∅ []).
  - cbn [app]. rewrite (count_between_below _ _ (accepted u calls ∅)).
    + reflexivity.
    + apply accepted_among_calls. exact Hquiet.
  - rewrite lookup_empty. apply history_of_nil.
  - subst t0. destruct (map snd (calls ++ [(u, now)])) as [|a l] eqn:E.
    + destruct calls; discriminate.
    + cbn [hd]. constructor; [exact Hs|]. constructor. lia.
Qed.

(** ** More on the cached lookups *)

Lemma service_keys_differ t t' : cache_key Primary t <> cache_key Secondary t'.
Proof. cbn. discriminate. Qed.

(** A lookup writes at most the entry of its own key and removes none. *)
Lemma lookup_cache_frame s env title w :
  (forall k, k <> cache_key s title ->
     cache (lookup s env title w).2 !! k = cache w !! k) /\
  (forall k ci, cache w !! k = Some ci ->
     is_Some (cache (lookup s env title w).2 !! k)).
Proof.
  destruct (String.eqb_spec (api_key s) "") as [Hk|Hk].
  - rewrite lookup_unconfigured by assumption. cbn [snd]. split; [reflexivity|eauto].
  - rewrite lookup_unfold by assumption.
    destruct (live_value _ _); [cbn [snd]; split; [reflexivity|eauto]|].
    destruct (fetch_outcome s env); cbn [snd cache]; [|split; [reflexivity|eauto]].
    split.
    + intros k Hne. apply lookup_insert_ne. congruence.
    + intros k ci Hci. destruct (decide (cache_key s title = k)) as [<-|Hne].
      * rewrite lookup_insert_eq. eauto.
      * rewrite lookup_insert_ne by assumption. eauto.
Qed.

(** [X10] A lookup writes no cache entry but the one of its own key and
    removes none, so it never changes what a lookup for another key returns;
    and the keys of the two services never coincide, whatever the titles. *)
Theorem lookup_touches_own_entry_only s env title w :
  (forall k, k <> cache_key s title ->
     cache (lookup s env title w).2 !! k = cache w !! k) /\
  (forall k ci, cache w !! k = Some ci ->
     is_Some (cache (lookup s env title w).2 !! k)) /\
  (forall s' env' title',
     cache_key s' title' <> cache_key s title ->
     (lookup s' env' title' (lookup s env title w).2).1 = (lookup s' env' title' w).1) /\
  (forall t t', cache_key Primary t <> cache_key Secondary t').
Proof.
  destruct (lookup_cache_frame s env title w) as [Hother Hkept].
  split; [exact Hother|]. split; [exact Hkept|]. split.
  - intros s' env' title' Hne. apply lookup_result_entry. apply Hother. exact Hne.
  - intros t t'. cbn. discriminate.
Qed.

(** [X11] With [CACHE_TTL_SECONDS] zero or negative the cache serves
    nothing: the entry written by a fetch is already expired at the reading
    of the fetch, and every call at that reading or later sends its request. *)
Theorem nonpositive_ttl_disables_cache s env1 env2 title1 title2 w data :
  api_key s <> "" ->
  CACHE_TTL_SECONDS cfg <= 0 ->
  live_value (cache w !! cache_key s title1) (read_time s env1) = None ->
  fetch_outcome s env1 = Ret data ->
  cache_key s title2 = cache_key s title1 ->
  read_time s env1 <= read_time s env2 ->
  trace (lookup s env2 title2 (lookup s env1 title1 w).2).2
  = trace w ++ [request s title1; request s title2].
Proof.
  intros Hkey Httl Hmiss Hfetch Hsame Hlater.
  rewrite (lookup_unfold s env1 title1 w Hkey), Hmiss, Hfetch. cbn [snd].
  rewrite lookup_unfold by assumption. cbn [cache trace].
  rewrite Hsame, lookup_insert_eq. cbn [live_value expiry value].
  assert (Husec : 0 < usec) by (unfold usec; lia).
  destruct (_ >? read_time s env2) eqn:E; [nia|].
  destruct (fetch_outcome s env2); cbn [snd trace]; rewrite <- app_assoc; reflexivity.
Qed.

(** ** More on the handler: the shape of a run *)

Lemma add_events_nil w : add_events [] w = w.
Proof. destruct w. unfold add_events. cbn. rewrite app_nil_r. reflexivity. Qed.

Lemma one_reply_send_message env upd txt pm : one_reply env (send_message env upd txt pm).
Proof.
  intros w. unfold send_message, chat_id_of, bind, emit, lift, raise, ret.
  destruct (effective_chat upd) as [c|].
  - right. eexists. split; [|reflexivity]. reflexivity.
  - left. eexists. reflexivity.
Qed.

Lemma one_reply_send_photo env upd p cap pm : one_reply env (send_photo env upd p cap pm).
Proof.
  intros w. unfold send_photo, chat_id_of, bind, emit, lift, raise, ret.
  destruct (effective_chat upd) as [c|].
  - right. eexists. split; [|reflexivity]. reflexivity.
  - left. eexists. reflexivity.
Qed.

Lemma one_reply_render env upd r : one_reply env (render env upd r).
Proof.
  unfold render. destruct (poster_url r);
    [apply one_reply_send_photo|apply one_reply_send_message].
Qed.

Lemma one_reply_lift {A} env (r : Res A) (k : A -> M unit) :
  (forall a, one_reply env (k a)) -> one_reply env (let! a := lift r in k a).
Proof.
  intros Hk w. unfold bind, lift. destruct r as [a|e]; [apply Hk|].
  left. eexists. reflexivity.
Qed.

Lemma one_reply_reply_tmdb env upd q info : one_reply env (reply_tmdb env upd q info).
Proof.
  unfold reply_tmdb.
  repeat (apply one_reply_lift; intros ?).
  destruct (truthy _); [apply one_reply_send_photo|apply one_reply_send_message].
Qed.

Lemma one_reply_reply_omdb env upd om : one_reply env (reply_omdb env upd om).
Proof.
  unfold reply_omdb.
  repeat (apply one_reply_lift; intros ?).
  destruct (_ && _); [apply one_reply_send_photo|apply one_reply_send_message].
Qed.

(** What [one_reply] says of the world left behind. *)
Lemma one_reply_world env c w :
  one_reply env c ->
  exists res sends,
    c w = (res, add_events sends w) /\
    (sends = [] \/ exists ev, sends = [ev] /\ is_send ev = true) /\
    (forall a, res = Ret a -> exists ev, sends = [ev]).
Proof.
  intros H. destruct (H w) as [[e Hc]|[ev [Hev Hc]]]; rewrite Hc.
  - exists (Raise e), []. rewrite add_events_nil.
    split; [reflexivity|]. split; [auto|intros ? ?; discriminate].
  - exists (send env), [ev]. split; [reflexivity|]. split; [right|]; eauto.
Qed.

(** The lookups done, the reply made: the world after [lookup_and_reply] is
    the world after its last lookup plus at most one send. *)
Lemma lookup_and_reply_run env upd q w :
  exists res wl sends,
    (wl = (tmdb_search env q w).2 \/
     wl = (omdb_lookup env q (tmdb_search env q w).2).2) /\
    lookup_and_reply env upd q w = (res, add_events sends wl) /\
    (sends = [] \/ exists ev, sends = [ev] /\ is_send ev = true) /\
    (forall a, res = Ret a -> exists ev, sends = [ev]).
Proof.
  unfold lookup_and_reply, bind at 1.
  destruct (tmdb_search env q w) as [[info|e] w3]; cbn [snd].
  2:{ exists (Raise e), w3, []. rewrite add_events_nil.
      split; [auto|]. split; [reflexivity|]. split; [auto|intros ? ?; discriminate]. }
  unfold bind at 1. unfold lift at 1.
  destruct (and_get info "results") as [r|e].
  2:{ exists (Raise e), w3, []. rewrite add_events_nil.
      split; [auto|]. split; [reflexivity|]. split; [auto|intros ? ?; discriminate]. }
  destruct (truthy r).
  - destruct (one_reply_world env _ w3 (one_reply_reply_tmdb env upd q info))
      as (res & sends & Hw & Hs & Hr).
    exists res, w3, sends. auto.
  - unfold omdb_and_reply, bind at 1.
    destruct (omdb_lookup env q w3) as [[om|e] w4]; cbn [snd].
    2:{ exists (Raise e), w4, []. rewrite add_events_nil.
        split; [auto|]. split; [reflexivity|]. split; [auto|intros ? ?; discriminate]. }
    unfold bind at 1. unfold lift at 1.
    destruct (and_get om "Response") as [resp|e].
    2:{ exists (Raise e), w4, []. rewrite add_events_nil.
        split; [auto|]. split; [reflexivity|]. split; [auto|intros ? ?; discriminate]. }
    destruct (py_eq_str resp "True").
    + destruct (one_reply_world env _ w4 (one_reply_reply_omdb env upd om))
        as (res & sends & Hw & Hs & Hr).
      exists res, w4, sends. auto.
    + destruct (one_reply_world env _ w4
                  (one_reply_send_message env upd "❌ Not found. Try another title." None))
        as (res & sends & Hw & Hs & Hr).
      exists res, w4, sends. auto.
Qed.

Lemma text_handler_no_message env upd w :
  (rate_limited (uid_of upd) (now_rl env) (user_events w)).1 = false ->
  message upd = None ->
  text_handler env upd w = (Raise AttributeError, limited_world env upd w).
Proof.
  intros Hpass Hmsg. unfold text_handler, bind, on_user_events, limited_world.
  destruct (rate_limited (uid_of upd) (now_rl env) (user_events w)) as [b ue].
  cbn [fst snd] in *. subst b. rewrite Hmsg. reflexivity.
Qed.

Lemma audit_events_audit env uid q :
  Forall (fun e => is_audit e = true) (audit_events env uid q).
Proof.
  unfold audit_events. destruct (db cfg); [|constructor].
  destruct (db_bool env) as [[|]|]; [|constructor|repeat constructor].
  destruct (db_insert env); repeat constructor.
Qed.

(** [X4] Every run of [text_handler] extends the trace by the events of the
    database insert, then at most one request to each service, the Primary's
    first, then at most one message to the chat; and it returns normally
    only after sending that message. *)
Theorem one_reply_per_message env upd w :
  exists audit reqs sends q,
    trace (text_handler env upd w).2 = trace w ++ audit ++ reqs ++ sends /\
    Forall (fun e => is_audit e = true) audit /\
    (reqs = [] \/ reqs = [request Primary q] \/ reqs = [request Secondary q] \/
     reqs = [request Primary q; request Secondary q]) /\
    (sends = [] \/ exists ev, sends = [ev] /\ is_send ev = true) /\
    (forall a, (text_handler env upd w).1 = Ret a -> exists ev, sends = [ev]).
Proof.
  destruct (rate_limited (uid_of upd) (now_rl env) (user_events w)).1 eqn:Hlim.
  - rewrite (text_handler_limited env upd w Hlim).
    destruct (one_reply_world env _ (limited_world env upd w)
                (one_reply_send_message env upd "⏳ Too many requests. Slow down." None))
      as (res & sends & Hw & Hs & Hr).
    rewrite Hw. exists [], [], sends, "". cbn [fst snd add_events limited_world trace app].
    repeat split; auto.
  - destruct (message upd) as [msg|] eqn:Hmsg.
    2:{ rewrite (text_handler_no_message env upd w Hlim Hmsg).
        exists [], [], [], "". cbn [fst snd limited_world trace app].
        rewrite app_nil_r. repeat split; auto. intros ? ?; discriminate. }
    rewrite (text_handler_passed env upd w msg Hlim Hmsg).
    destruct (lookup_and_reply_run env upd (query_of msg) (ready env upd msg w))
      as (res & wl & sends & Hwl & Hrun & Hs & Hr).
    rewrite Hrun. cbn [fst snd add_events trace].
    destruct (lookup_world Primary env (query_of msg) (ready env upd msg w))
      as (evs1 & Hevs1 & Htr1 & _).
    cbn [lookup] in Htr1.
    destruct Hwl as [-> | ->].
    + exists (audit_events env (uid_of upd) (query_of msg)), evs1, sends, (query_of msg).
      rewrite Htr1. cbn [ready add_events limited_world trace].
      rewrite <- !app_assoc. split; [reflexivity|]. split; [apply audit_events_audit|].
      split; [destruct Hevs1 as [-> | ->]; auto|]. auto.
    + destruct (lookup_world Secondary env (query_of msg)
                  (tmdb_search env (query_of msg) (ready env upd msg w)).2)
        as (evs2 & Hevs2 & Htr2 & _).
      cbn [lookup] in Htr2.
      exists (audit_events env (uid_of upd) (query_of msg)), (evs1 ++ evs2), sends,
        (query_of msg).
      rewrite Htr2, Htr1. cbn [ready add_events limited_world trace].
      rewrite <- !app_assoc. split; [reflexivity|]. split; [apply audit_events_audit|].
      split; [destruct Hevs1 as [-> | ->]; destruct Hevs2 as [-> | ->]; cbn; auto|]. auto.
Qed.

(** [X5] A message that the limiter rejects is not recorded in the sender's
    deque, causes no database insert and no lookup, leaves the cache as it
    was, and is answered with the one slow-down notice. *)
Theorem throttled_message_costs_nothing env upd w chat :
  (rate_limited (uid_of upd) (now_rl env) (user_events w)).1 = true ->
  effective_chat upd = Some chat ->
  text_handler env upd w =
    (send env,
     {| cache := cache w;
        user_events :=
          <[uid_of upd := popleft_old (now_rl env)
                            (default [] (user_events w !! uid_of upd))]> (user_events w);
        trace := trace w ++ [SendMessage chat "⏳ Too many requests. Slow down." None] |}).
Proof.
  intros Hlim Hchat. rewrite (text_handler_limited env upd w Hlim).
  unfold send_message, chat_id_of, bind, emit, lift, ret. rewrite Hchat.
  unfold limited_world. cbn [cache user_events trace].
  rewrite rate_limited_step in Hlim |- *. cbn [fst snd] in *.
  unfold limiter_step in *.
  destruct (Z.of_nat _ >=? RL_LIMIT); [reflexivity|discriminate].
Qed.

(** *** The trace is write-only *)

Lemma oblivious_ret {A} (a : A) : oblivious (ret a).
Proof. intros ca ue. exists (Ret a), ca, ue, []. intros tr. rewrite app_nil_r. reflexivity. Qed.

Lemma oblivious_raise {A} e : oblivious (@raise A e).
Proof. intros ca ue. exists (Raise e), ca, ue, []. intros tr. rewrite app_nil_r. reflexivity. Qed.

Lemma oblivious_lift {A} (r : Res A) : oblivious (lift r).
Proof. intros ca ue. exists r, ca, ue, []. intros tr. rewrite app_nil_r. reflexivity. Qed.

Lemma oblivious_emit e : oblivious (emit e).
Proof. intros ca ue. exists (Ret tt), ca, ue, [e]. intros tr. reflexivity. Qed.

Lemma oblivious_bind {A B} (c : M A) (k : A -> M B) :
  oblivious c -> (forall a, oblivious (k a)) -> oblivious (bind c k).
Proof.
  intros Hc Hk ca ue. destruct (Hc ca ue) as (r & ca1 & ue1 & new1 & H1).
  destruct r as [a|e].
  - destruct (Hk a ca1 ue1) as (r2 & ca2 & ue2 & new2 & H2).
    exists r2, ca2, ue2, (new1 ++ new2). intros tr.
    unfold bind. rewrite H1, H2, app_assoc. reflexivity.
  - exists (Raise e), ca1, ue1, new1. intros tr. unfold bind. rewrite H1. reflexivity.
Qed.

Lemma oblivious_lookup s env title : oblivious (lookup s env title).
Proof.
  intros ca ue. destruct (String.eqb_spec (api_key s) "") as [Hk|Hk].
  - exists (Ret PNone), ca, ue, []. intros tr.
    rewrite lookup_unconfigured by assumption. rewrite app_nil_r. reflexivity.
  - destruct (live_value (ca !! cache_key s title) (read_time s env)) as [v|] eqn:E.
    + exists (Ret v), ca, ue, []. intros tr. rewrite lookup_unfold by assumption.
      cbn [cache]. rewrite E, app_nil_r. reflexivity.
    + destruct (fetch_outcome s env) as [data|e] eqn:F.
      * eexists (Ret data), _, ue, [request s title]. intros tr.
        rewrite lookup_unfold by assumption. cbn [cache]. rewrite E, F. reflexivity.
      * exists (Raise e), ca, ue, [request s title]. intros tr.
        rewrite lookup_unfold by assumption. cbn [cache]. rewrite E, F. reflexivity.
Qed.

Lemma oblivious_send_message env upd txt pm : oblivious (send_message env upd txt pm).
Proof.
  unfold send_message, chat_id_of.
  destruct (effective_chat upd);
    repeat first [apply oblivious_bind; [|intros ?] | apply oblivious_ret
                 | apply oblivious_raise | apply oblivious_lift | apply oblivious_emit].
Qed.

Lemma oblivious_send_photo env upd p cap pm : oblivious (send_photo env upd p cap pm).
Proof.
  unfold send_photo, chat_id_of.
  destruct (effective_chat upd);
    repeat first [apply oblivious_bind; [|intros ?] | apply oblivious_ret
                 | apply oblivious_raise | apply oblivious_lift | apply oblivious_emit].
Qed.

Ltac solve_oblivious :=
  repeat first
    [ apply oblivious_send_message | apply oblivious_send_photo
    | apply (oblivious_lookup Primary) | apply (oblivious_lookup Secondary)
    | apply oblivious_bind; [|intros ?]
    | apply oblivious_ret | apply oblivious_raise | apply oblivious_lift
    | apply oblivious_emit
    | match goal with
      | |- oblivious (if ?b then _ else _) => destruct b
      end ].

Lemma oblivious_lookup_and_reply env upd q : oblivious (lookup_and_reply env upd q).
Proof.
  unfold lookup_and_reply, omdb_and_reply, reply_tmdb, reply_omdb. solve_oblivious.
Qed.

Lemma keep_app p tr1 tr2 : keep p (tr1 ++ tr2) = keep p tr1 ++ keep p tr2.
Proof.
  induction tr1 as [|e r IH]; [reflexivity|].
  cbn. rewrite IH. destruct (p e); reflexivity.
Qed.

Lemma keep_none p tr : Forall (fun e => p e = false) tr -> keep p tr = [].
Proof.
  induction 1 as [|e r He _ IH]; [reflexivity|]. cbn. rewrite He. exact IH.
Qed.

(** [X6] Whether the database insert is attempted, succeeds or raises has
    no bearing on the rest of the run: the outcome of [text_handler], the
    cache, [user_events] and every event other than the insert and its
    warning are the same. *)
Theorem audit_outcome_changes_nothing env upd w truth at_ ins :
  (text_handler (with_audit env truth at_ ins) upd w).1 = (text_handler env upd w).1 /\
  cache (text_handler (with_audit env truth at_ ins) upd w).2
    = cache (text_handler env upd w).2 /\
  user_events (text_handler (with_audit env truth at_ ins) upd w).2
    = user_events (text_handler env upd w).2 /\
  keep (fun e => negb (is_audit e))
       (trace (text_handler (with_audit env truth at_ ins) upd w).2)
    = keep (fun e => negb (is_audit e)) (trace (text_handler env upd w).2).
Proof.
  set (env' := with_audit env truth at_ ins).
  destruct (rate_limited (uid_of upd) (now_rl env) (user_events w)).1 eqn:Hlim.
  - rewrite (text_handler_limited env upd w Hlim).
    rewrite (text_handler_limited env' upd w Hlim).
    repeat split; reflexivity.
  - destruct (message upd) as [msg|] eqn:Hmsg.
    2:{ rewrite (text_handler_no_message env upd w Hlim Hmsg).
        rewrite (text_handler_no_message env' upd w Hlim Hmsg).
        repeat split; reflexivity. }
    rewrite (text_handler_passed env upd w msg Hlim Hmsg).
    rewrite (text_handler_passed env' upd w msg Hlim Hmsg).
    change (lookup_and_reply env' upd (query_of msg))
      with (lookup_and_reply env upd (query_of msg)).
    destruct (oblivious_lookup_and_reply env upd (query_of msg) (cache w)
                (rate_limited (uid_of upd) (now_rl env) (user_events w)).2)
      as (r & ca' & ue' & new & Hrun).
    unfold ready, add_events, limited_world. cbn [cache user_events trace].
    change (now_rl env') with (now_rl env).
    rewrite !Hrun. cbn [fst snd cache user_events trace].
    repeat split.
    rewrite !keep_app. f_equal. f_equal.
    rewrite !keep_none; [reflexivity| |].
    + eapply Forall_impl; [apply audit_events_audit|]. cbn. intros e ->. reflexivity.
    + eapply Forall_impl; [apply audit_events_audit|]. cbn. intros e ->. reflexivity.
Qed.

(** ** More on the handler: the Secondary and the not-found replies *)

(** The Secondary lookup gives in the handler what it gives on the world the
    message arrived in. *)
Lemma secondary_result_at_arrival env upd w msg :
  (omdb_lookup env (query_of msg)
     (tmdb_search env (query_of msg) (ready env upd msg w)).2).1
  = (omdb_lookup env (query_of msg) w).1.
Proof.
  apply (lookup_result_entry Secondary env (query_of msg)).
  rewrite secondary_entry_untouched. reflexivity.
Qed.

(** [X7] When the Primary answer holds no results and the Secondary answer
    is an object whose [Response] is "True", the reply is the rendering of
    the Secondary's fields, tagged IMDB: [Title], [Year] and [imdbRating]
    with the defaults "?", "" and "N/A" for a missing key, and [Poster] as
    the photo unless it is missing, falsy or "N/A". *)
Theorem secondary_match_is_rendered env upd w msg info r d :
  (rate_limited (uid_of upd) (now_rl env) (user_events w)).1 = false ->
  message upd = Some msg ->
  (tmdb_search env (query_of msg) w).1 = Ret info ->
  and_get info "results" = Ret r ->
  truthy r = false ->
  (omdb_lookup env (query_of msg) w).1 = Ret (PDict d) ->
  assoc "Response" d = Some (PStr "True") ->
  text_handler env upd w =
  render env upd
    {| lr_title := default (PStr "?") (assoc "Title" d);
       lr_year := default (PStr "") (assoc "Year" d);
       lr_rating := default (PStr "N/A") (assoc "imdbRating" d);
       rating_source := "IMDB";
       poster_url :=
         if truthy (default PNone (assoc "Poster" d))
            && negb (py_eq_str (default PNone (assoc "Poster" d)) "N/A")
         then Some (default PNone (assoc "Poster" d)) else None |}
    (omdb_lookup env (query_of msg)
       (tmdb_search env (query_of msg) (ready env upd msg w)).2).2.
Proof.
  intros Hpass Hmsg Hinfo Hr Hfalsy Hom Hresp.
  rewrite (text_handler_secondary env upd w msg info r Hpass Hmsg Hinfo Hr Hfalsy).
  rewrite (omdb_and_reply_match env upd (query_of msg) _ d); [| |exact Hresp].
  - reflexivity.
  - rewrite secondary_result_at_arrival. exact Hom.
Qed.

(** [X8] When the Primary answer holds no results and the Secondary answer
    is not a match (it is falsy, or its [Response] is not the string
    "True"), the handler sends the fixed not-found text, without a parse
    mode, after the two lookups. *)
Theorem no_match_gets_not_found env upd w msg info r om resp :
  (rate_limited (uid_of upd) (now_rl env) (user_events w)).1 = false ->
  message upd = Some msg ->
  (tmdb_search env (query_of msg) w).1 = Ret info ->
  and_get info "results" = Ret r ->
  truthy r = false ->
  (omdb_lookup env (query_of msg) w).1 = Ret om ->
  and_get om "Response" = Ret resp ->
  py_eq_str resp "True" = false ->
  text_handler env upd w =
  send_message env upd "❌ Not found. Try another title." None
    (omdb_lookup env (query_of msg)
       (tmdb_search env (query_of msg) (ready env upd msg w)).2).2.
Proof.
  intros Hpass Hmsg Hinfo Hr Hfalsy Hom Hresp Hno.
  rewrite (text_handler_secondary env upd w msg info r Hpass Hmsg Hinfo Hr Hfalsy).
  rewrite <- (secondary_result_at_arrival env upd w msg) in Hom.
  unfold omdb_and_reply. unfold bind at 1.
  destruct (omdb_lookup env (query_of msg)
              (tmdb_search env (query_of msg) (ready env upd msg w)).2) as [o w4].
  cbn [fst snd] in *. subst o.
  unfold bind at 1. unfold lift at 1. rewrite Hresp, Hno. reflexivity.
Qed.

(** [X9] With neither API key set, a message that passes the limiter is
    answered "not found" without any HTTP request, whatever the cache
    holds. *)
Theorem unconfigured_lookups_stay_offline env upd w msg chat :
  TMDB_API_KEY cfg = "" ->
  OMDB_API_KEY cfg = "" ->
  (rate_limited (uid_of upd) (now_rl env) (user_events w)).1 = false ->
  message upd = Some msg ->
  effective_chat upd = Some chat ->
  text_handler env upd w =
  (send env,
   add_events [SendMessage chat "❌ Not found. Try another title." None]
     (add_events (audit_events env (uid_of upd) (query_of msg))
        (limited_world env upd w))).
Proof.
  intros Ht Ho Hpass Hmsg Hchat.
  assert (HP : forall w', tmdb_search env (query_of msg) w' = (Ret PNone, w')).
  { intros w'. apply (lookup_unconfigured Primary). exact Ht. }
  assert (HS : forall w', omdb_lookup env (query_of msg) w' = (Ret PNone, w')).
  { intros w'. apply (lookup_unconfigured Secondary). exact Ho. }
  rewrite (text_handler_passed env upd w msg Hpass Hmsg).
  unfold lookup_and_reply, omdb_and_reply. unfold bind at 1. rewrite HP.
  unfold bind at 1. unfold lift at 1. cbn [and_get truthy].
  unfold bind at 1. rewrite HS.
  unfold bind at 1. unfold lift at 1. cbn [and_get truthy py_eq_str].
  unfold send_message, chat_id_of, bind, emit, lift, ret. rewrite Hchat. reflexivity.
Qed.

(** ** More on the handler: its use of the cache *)

(** After the Primary lookup the handler sends no request to the Primary and
    leaves the Primary's cache entries alone. *)
Lemma handler_primary_footprint env upd w msg :
  (rate_limited (uid_of upd) (now_rl env) (user_events w)).1 = false ->
  message upd = Some msg ->
  exists rest,
    trace (text_handler env upd w).2
      = trace (tmdb_search env (query_of msg) (ready env upd msg w)).2 ++ rest /\
    Forall (fun e => is_tmdb_request e = false) rest /\
    (forall k, k <> cache_key Secondary (query_of msg) ->
       cache (text_handler env upd w).2 !! k
       = cache (tmdb_search env (query_of msg) (ready env upd msg w)).2 !! k) /\
    (forall k ci,
       cache (tmdb_search env (query_of msg) (ready env upd msg w)).2 !! k = Some ci ->
       is_Some (cache (text_handler env upd w).2 !! k)).
Proof.
  intros Hpass Hmsg. rewrite (text_handler_passed env upd w msg Hpass Hmsg).
  destruct (lookup_and_reply_run env upd (query_of msg) (ready env upd msg w))
    as (res & wl & sends & Hwl & Hrun & Hs & _).
  rewrite Hrun. cbn [snd add_events trace cache].
  assert (Hsends : Forall (fun e => is_tmdb_request e = false) sends).
  { destruct Hs as [-> | (ev & -> & Hev)]; [constructor|].
    repeat constructor. destruct ev; try discriminate; reflexivity. }
  destruct Hwl as [-> | ->].
  - exists sends. split; [reflexivity|]. split; [exact Hsends|]. split; [reflexivity|eauto].
  - set (w3 := (tmdb_search env (query_of msg) (ready env upd msg w)).2).
    destruct (lookup_world Secondary env (query_of msg) w3) as (evs2 & Hevs2 & Htr2 & _).
    destruct (lookup_cache_frame Secondary env (query_of msg) w3) as [Hother Hkept].
    cbn [lookup] in *.
    exists (evs2 ++ sends). split; [rewrite Htr2, <- app_assoc; reflexivity|].
    split; [|split; [exact Hother|exact Hkept]].
    apply Forall_app. split; [|exact Hsends].
    destruct Hevs2 as [-> | ->]; repeat constructor.
Qed.

(** [X12] The handler never removes a cache entry, and writes none but
    those of the two keys of the message's query. *)
Theorem handler_cache_footprint env upd w k :
  (forall ci, cache w !! k = Some ci -> is_Some (cache (text_handler env upd w).2 !! k)) /\
  ((forall msg, message upd = Some msg ->
      k <> cache_key Primary (query_of msg) /\ k <> cache_key Secondary (query_of msg)) ->
   cache (text_handler env upd w).2 !! k = cache w !! k).
Proof.
  destruct (rate_limited (uid_of upd) (now_rl env) (user_events w)).1 eqn:Hlim.
  - rewrite (text_handler_limited env upd w Hlim).
    destruct (one_reply_world env _ (limited_world env upd w)
                (one_reply_send_message env upd "⏳ Too many requests. Slow down." None))
      as (res & sends & Hw & _).
    rewrite Hw. cbn [snd add_events limited_world cache]. split; eauto.
  - destruct (message upd) as [msg|] eqn:Hmsg.
    2:{ rewrite (text_handler_no_message env upd w Hlim Hmsg).
        cbn [snd limited_world cache]. split; eauto. }
    destruct (handler_primary_footprint env upd w msg Hlim Hmsg)
      as (rest & _ & _ & Hother & Hkept).
    destruct (lookup_cache_frame Primary env (query_of msg) (ready env upd msg w))
      as [HotherP HkeptP].
    cbn [lookup] in *.
    split.
    + intros ci Hci. destruct (HkeptP k ci Hci) as [ci' Hci']. eauto.
    + intros Hk. destruct (Hk msg eq_refl) as [HkP HkS].
      rewrite (Hother k HkS). apply (HotherP k HkP).
Qed.

Lemma tmdb_requests_app tr1 tr2 :
  tmdb_requests (tr1 ++ tr2) = (tmdb_requests tr1 + tmdb_requests tr2)%nat.
Proof. unfold tmdb_requests. rewrite keep_app, length_app. reflexivity. Qed.

Lemma tmdb_requests_none tr :
  Forall (fun e => is_tmdb_request e = false) tr -> tmdb_requests tr = O.
Proof. intros H. unfold tmdb_requests. rewrite keep_none by assumption. reflexivity. Qed.

Lemma audit_events_no_tmdb env uid q : tmdb_requests (audit_events env uid q) = O.
Proof.
  apply tmdb_requests_none. eapply Forall_impl; [apply audit_events_audit|].
  intros e. destruct e; cbn; congruence.
Qed.

Lemma ready_tmdb_requests env upd msg w :
  tmdb_requests (trace (ready env upd msg w)) = tmdb_requests (trace w).
Proof.
  cbn [ready add_events limited_world trace].
  rewrite tmdb_requests_app, audit_events_no_tmdb. lia.
Qed.

(** Requests to the Primary in one run of the handler: one at most, and
    none when the entry of the query is live at the reading of the lookup. *)
Lemma handler_tmdb_requests env upd w :
  (tmdb_requests (trace (text_handler env upd w).2) <= tmdb_requests (trace w) + 1)%nat /\
  (forall msg v,
      message upd = Some msg ->
      live_value (cache w !! cache_key Primary (query_of msg)) (now_tmdb env) = Some v ->
      tmdb_requests (trace (text_handler env upd w).2) = tmdb_requests (trace w)).
Proof.
  destruct (rate_limited (uid_of upd) (now_rl env) (user_events w)).1 eqn:Hlim.
  - rewrite (text_handler_limited env upd w Hlim).
    destruct (one_reply_world env _ (limited_world env upd w)
                (one_reply_send_message env upd "⏳ Too many requests. Slow down." None))
      as (res & sends & Hw & Hs & _).
    rewrite Hw. cbn [snd add_events limited_world trace].
    assert (H0 : tmdb_requests sends = O).
    { destruct Hs as [-> | (ev & -> & Hev)]; [reflexivity|].
      destruct ev; try discriminate; reflexivity. }
    rewrite tmdb_requests_app, H0. split; [lia|intros; lia].
  - destruct (message upd) as [msg|] eqn:Hmsg.
    2:{ rewrite (text_handler_no_message env upd w Hlim Hmsg).
        cbn [snd limited_world trace]. split; [lia|intros; discriminate]. }
    destruct (handler_primary_footprint env upd w msg Hlim Hmsg)
      as (rest & Htr & Hrest & _ & _).
    rewrite Htr, tmdb_requests_app, (tmdb_requests_none rest Hrest).
    change (tmdb_search env (query_of msg) (ready env upd msg w))
      with (lookup Primary env (query_of msg) (ready env upd msg w)).
    split.
    + destruct (lookup_world Primary env (query_of msg) (ready env upd msg w))
        as (evs1 & Hevs1 & Htr1 & _).
      rewrite Htr1, tmdb_requests_app, ready_tmdb_requests.
      destruct Hevs1 as [-> | ->]; cbn; lia.
    + intros m v [= <-] Hlive.
      destruct (String.eqb_spec (api_key Primary) "") as [Hk|Hk].
      * rewrite lookup_unconfigured by assumption. cbn [snd].
        rewrite ready_tmdb_requests. lia.
      * rewrite lookup_unfold by assumption.
        cbn [ready add_events limited_world cache read_time].
        rewrite Hlive. cbn [snd].
        change (tmdb_requests (trace (ready env upd msg w)) + 0
                = tmdb_requests (trace w))%nat.
        rewrite ready_tmdb_requests. lia.
Qed.

(** [X13] Two messages whose queries have the same lowercase form, the
    second read by the Primary lookup before the first's reading plus the
    TTL: when the first run's Primary lookup returns, the two runs send at
    most one request to the Primary between them. *)
Theorem repeated_query_one_primary_request env1 env2 upd1 upd2 w msg1 msg2 info :
  (rate_limited (uid_of upd1) (now_rl env1) (user_events w)).1 = false ->
  message upd1 = Some msg1 ->
  (tmdb_search env1 (query_of msg1) w).1 = Ret info ->
  message upd2 = Some msg2 ->
  str_lower rt (query_of msg2) = str_lower rt (query_of msg1) ->
  now_tmdb env2 < now_tmdb env1 + CACHE_TTL_SECONDS cfg * usec ->
  (tmdb_requests (trace (text_handler env2 upd2 (text_handler env1 upd1 w).2).2)
   <= tmdb_requests (trace w) + 1)%nat.
Proof.
  intros Hpass1 Hmsg1 Hinfo Hmsg2 Hlower Hin.
  set (w1 := (text_handler env1 upd1 w).2).
  assert (Hkey12 : cache_key Primary (query_of msg2) = cache_key Primary (query_of msg1)).
  { cbn. rewrite Hlower. reflexivity. }
  destruct (handler_primary_footprint env1 upd1 w msg1 Hpass1 Hmsg1)
    as (rest & Htr & Hrest & Hother & _).
  fold w1 in Htr, Hother.
  specialize (Hother (cache_key Primary (query_of msg1)) (service_keys_differ _ _)).
  pose proof (lookup_result_cache Primary env1 (query_of msg1)
                (ready env1 upd1 msg1 w) w eq_refl) as Hsame.
  cbn [lookup] in Hsame. rewrite Hinfo in Hsame.
  change (tmdb_search env1 (query_of msg1) (ready env1 upd1 msg1 w))
    with (lookup Primary env1 (query_of msg1) (ready env1 upd1 msg1 w)) in *.
  destruct (handler_tmdb_requests env2 upd2 w1) as [Hbound Hhit].
  assert (HT1 : tmdb_requests (trace w1)
                = tmdb_requests
                    (trace (lookup Primary env1 (query_of msg1) (ready env1 upd1 msg1 w)).2)).
  { rewrite Htr, tmdb_requests_app, (tmdb_requests_none rest Hrest). lia. }
  destruct (String.eqb_spec (api_key Primary) "") as [Hk|Hk].
  - (* the Primary is not configured: no request in the first run *)
    rewrite lookup_unconfigured in HT1 by assumption. cbn [snd] in HT1.
    rewrite ready_tmdb_requests in HT1. lia.
  - rewrite lookup_unfold in HT1, Hother, Hsame by assumption.
    cbn [ready add_events limited_world cache] in HT1, Hother, Hsame.
    destruct (live_value (cache w !! cache_key Primary (query_of msg1))
                (read_time Primary env1)) as [v|] eqn:E1.
    + (* the first run was served from the cache *)
      cbn [snd trace] in HT1.
      rewrite ?tmdb_requests_app, ?audit_events_no_tmdb, ?ready_tmdb_requests in HT1. lia.
    + (* the first run fetched: its entry is live for the second *)
      destruct (fetch_outcome Primary env1) as [data|e]; [|discriminate].
      cbn [snd cache trace] in HT1, Hother.
      rewrite lookup_insert_eq in Hother.
      rewrite ?tmdb_requests_app, ?audit_events_no_tmdb, ?ready_tmdb_requests in HT1.
      assert (Hlive : live_value (cache w1 !! cache_key Primary (query_of msg2))
                        (now_tmdb env2) = Some data).
      { rewrite Hkey12, Hother. cbn [live_value expiry value read_time].
        destruct (_ >? now_tmdb env2) eqn:E2; [reflexivity|lia]. }
      rewrite (Hhit msg2 data Hmsg2 Hlive), HT1. cbn. lia.
Qed.

(** ** More on the handler: what can go wrong in a reply *)

(** [X14] Once the first Primary result [top] is at hand and the update has
    a chat, the TMDB reply block fails in two cases only: with
    [AttributeError] when [top] is not an object, and with the error of
    [[:4]] when its [release_date] is truthy and neither a string nor a
    list; in both nothing is sent.  In every other case it makes one send
    and ends as the send does. *)
Theorem tmdb_reply_errors env upd q info results top chat w :
  py_item info "results" = Ret results ->
  py_item0 results = Ret top ->
  effective_chat upd = Some chat ->
  match top with
  | PDict d =>
      if sliceable (py_or (default PNone (assoc "release_date" d)) (PStr ""))
      then exists ev, is_send ev = true /\
                      reply_tmdb env upd q info w = (send env, add_events [ev] w)
      else reply_tmdb env upd q info w = (Raise SubscriptError, w)
  | _ => reply_tmdb env upd q info w = (Raise AttributeError, w)
  end.
Proof.
  intros Hres Htop Hchat.
  rewrite (reply_tmdb_render env upd q info results top w Hres Htop).
  unfold bind, lift, primary_result.
  destruct top as [| | | | |l|d]; try reflexivity.
  cbn [py_get res_bind].
  destruct (py_or (default PNone (assoc "release_date" d)) (PStr "")) as [| | | |s|l|d'];
    cbn [sliceable py_slice4 res_bind]; try reflexivity.
  - unfold render, send_photo, send_message, chat_id_of, bind, emit, lift, ret.
    cbn [poster_url]. rewrite Hchat.
    destruct (truthy (default PNone (assoc "poster_path" d)));
      eexists; (split; [|reflexivity]); reflexivity.
  - unfold render, send_photo, send_message, chat_id_of, bind, emit, lift, ret.
    cbn [poster_url]. rewrite Hchat.
    destruct (truthy (default PNone (assoc "poster_path" d)));
      eexists; (split; [|reflexivity]); reflexivity.
Qed.

(** [X15] An update that passes the limiter but carries no [message] makes
    [text_handler] raise [AttributeError] once the call is recorded in the
    sender's deque: no database insert, no lookup, no reply. *)
Theorem update_without_message_raises env upd w :
  (rate_limited (uid_of upd) (now_rl env) (user_events w)).1 = false ->
  message upd = None ->
  text_handler env upd w =
  (Raise AttributeError,
   {| cache := cache w;
      user_events :=
        <[uid_of upd := popleft_old (now_rl env)
                          (default [] (user_events w !! uid_of upd)) ++ [now_rl env]]>
          (user_events w);
      trace := trace w |}).
Proof.
  intros Hpass Hmsg. rewrite (text_handler_no_message env upd w Hpass Hmsg).
  unfold limited_world. rewrite rate_limited_step in Hpass |- *.
  cbn [fst snd] in *. unfold limiter_step in *.
  destruct (Z.of_nat _ >=? RL_LIMIT); [discriminate|reflexivity].
Qed.

(** ** The command handlers *)

(** [X16] The [/start], [/help] and [/ping] handlers are outside the rate
    limiter: each sends its fixed text to the chat, also to a sender whose
    window is full, and leaves [user_events] and the cache as they were, so
    that they neither count against the sender nor change what
    [rate_limited] answers next. *)
Theorem commands_bypass_limiter env upd w chat :
  effective_chat upd = Some chat ->
  start_cmd env upd w =
    (send env,
     add_events [SendMessage chat
                   ("🎬 Welcome to *AllMovies UltraPro*!" +:+ nl +:+ "Send a movie name.")
                   Markdown] w) /\
  help_cmd env upd w =
    (send env,
     add_events [SendMessage chat "Send a movie name. Example: `Jailer`" Markdown] w) /\
  ping_cmd env upd w = (send env, add_events [SendMessage chat "pong ✅" None] w) /\
  forall cmd uid now,
    In cmd [start_cmd; help_cmd; ping_cmd] ->
    rate_limited uid now (user_events (cmd env upd w).2)
    = rate_limited uid now (user_events w).
Proof.
  intros Hchat.
  assert (Hsend : forall txt pm,
             send_message env upd txt pm w = (send env, add_events [SendMessage chat txt pm] w)).
  { intros txt pm. unfold send_message, chat_id_of, bind, emit, lift, ret.
    rewrite Hchat. reflexivity. }
  split; [apply Hsend|]. split; [apply Hsend|]. split; [apply Hsend|].
  intros cmd uid now [<-|[<-|[<-|[]]]];
    unfold start_cmd, help_cmd, ping_cmd; rewrite Hsend; reflexivity.
Qed.

(** ** More on the webhook route *)

(** [X17] [webhook] changes nothing by itself: either the world is left as
    it was, or the token and the secret matched, the body decoded to an
    update, and the world is the one [process_update] made of it; the
    route then answers [{"ok": True}] if [process_update] returned and
    raises what it raised otherwise. *)
Theorem webhook_state_changes_are_authenticated
    (de_json : pyval -> Res Update) (process_update : Update -> M unit)
    (token : string) (request : Request) (w : World) :
  (webhook de_json process_update token request w).2 = w \/
  token = BOT_TOKEN cfg /\
  default "" (query_secret request) = WEBHOOK_SECRET cfg /\
  exists data update,
    json request = Ret data /\
    de_json data = Ret update /\
    (webhook de_json process_update token request w).2 = (process_update update w).2 /\
    (webhook de_json process_update token request w).1
    = match (process_update update w).1 with
      | Ret _ => Ret (PDict [("ok", PBool true)])
      | Raise e => Raise e
      end.
Proof.
  destruct (String.eqb token (BOT_TOKEN cfg)) eqn:Htok.
  2:{ left. unfold webhook. rewrite Htok. reflexivity. }
  destruct (String.eqb (default "" (query_secret request)) (WEBHOOK_SECRET cfg)) eqn:Hsec.
  2:{ left. unfold webhook. rewrite Htok, Hsec. reflexivity. }
  destruct (json request) as [data|e] eqn:Hjson.
  2:{ left. unfold webhook, bind, lift. rewrite Htok, Hsec, Hjson. reflexivity. }
  destruct (de_json data) as [update|e] eqn:Hupd.
  2:{ left. unfold webhook, bind, lift. rewrite Htok, Hsec, Hjson. cbn [negb].
      rewrite Hupd. reflexivity. }
  right. apply String.eqb_eq in Htok as Htok'. apply String.eqb_eq in Hsec as Hsec'.
  split; [exact Htok'|]. split; [exact Hsec'|].
  exists data, update. split; [reflexivity|]. split; [exact Hupd|].
  unfold webhook, bind, lift, ret. rewrite Htok, Hsec, Hjson. cbn [negb]. rewrite Hupd.
  destruct (process_update update w) as [[[]|e] w'']; split; reflexivity.
Qed.

(** ** The handler and the limiter *)

(** [X18] Every run of [text_handler], also one that raises, calls the
    limiter once with the sender's identity: [user_events] afterwards is
    what that one call left, so a message costs its sender one slot at most
    and costs nobody else anything. *)
Theorem handler_consults_limiter_once env upd w :
  user_events (text_handler env upd w).2
  = (rate_limited (uid_of upd) (now_rl env) (user_events w)).2.
Proof.
  destruct (rate_limited (uid_of upd) (now_rl env) (user_events w)).1 eqn:Hlim.
  - rewrite (text_handler_limited env upd w Hlim).
    rewrite keeps_ue_send_message. reflexivity.
  - destruct (message upd) as [msg|] eqn:Hmsg.
    + rewrite (text_handler_passed env upd w msg Hlim Hmsg).
      rewrite keeps_ue_lookup_and_reply. reflexivity.
    + rewrite (text_handler_no_message env upd w Hlim Hmsg). reflexivity.
Qed.

End Bot.

(** * The statements at concrete inputs *)

Lemma rate_window_invariant_witness :
  window_ok (31 * usec)
    (default [] (limiter_run ([(7, 0); (8, 5 * usec)] ++ [(7, 31 * usec)]) ∅ !! 7)).
Proof.
  destruct (rate_window_invariant [(7, 0); (8, 5 * usec)] 7 (31 * usec)) as [Hlen Hwin].
  split; [|exact Hlen].
  apply Hwin. cbn. repeat constructor; unfold usec; lia.
Defined.

(** After a fetch at t=0 with the TTL of 900 s: a call at t=10 s is served
    from the cache, calls at t=0 and t=899 s make one request together, and a
    call at t=900 s makes a new one. *)
Lemma live_entry_skips_fetch_witness :
  let w1 := (lookup ascii_runtime cfg_demo Primary
               (env_at 0 (Ret jailer_payload)) "Jailer" world0).2 in
  lookup ascii_runtime cfg_demo Primary (env_at 10 (Raise HTTPError)) "JAILER" w1
    = (Ret jailer_payload, w1) /\
  (fetches (trace (lookup ascii_runtime cfg_demo Primary
                     (env_at 899 (Raise HTTPError)) "jailer" w1).2)
   <= fetches (trace world0) + 1)%nat /\
  fetches (trace (lookup ascii_runtime cfg_demo Primary
                    (env_at 900 (Raise HTTPError)) "jailer" w1).2)
  = S (fetches (trace w1)).
Proof.
  assert (Hkey : api_key cfg_demo Primary <> "") by discriminate.
  destruct (live_entry_skips_fetch ascii_runtime cfg_demo Primary Hkey) as (H1 & H2 & H3).
  intros w1. split; [|split].
  - apply (H1 (env_at 10 (Raise HTTPError)) "JAILER" w1
             {| value := jailer_payload; expiry := 900 * usec |});
      vm_compute; reflexivity.
  - apply (H2 (env_at 0 (Ret jailer_payload)) (env_at 899 (Raise HTTPError))
             "Jailer" "jailer" world0 jailer_payload w1);
      vm_compute; reflexivity.
  - apply (H3 (env_at 0 (Ret jailer_payload)) (env_at 900 (Raise HTTPError))
             "Jailer" "jailer" world0 jailer_payload w1);
      try (vm_compute; reflexivity).
    vm_compute. discriminate.
Defined.


(** The scenario run: Primary matches, the Secondary (configured, and down)
    is not consulted, and the photo goes out with the caption of the first
    result. *)
Lemma primary_match_wins_witness :
  (exists evs,
      trace (text_handler ascii_runtime cfg_demo env_demo upd_demo world0).2
        = trace world0 ++ evs /\
      Forall (fun e => is_omdb_request e = false) evs) /\
  text_handler ascii_runtime cfg_demo env_demo upd_demo world0 =
  (Ret tt,
   add_events
     [SendPhoto 42 (PStr "https://image.tmdb.org/t/p/w500/abc.jpg")
        ("🎬 *Jailer* (2023)" +:+ nl +:+ "⭐ 7.8 / 10 (TMDB)") Markdown]
     (tmdb_search ascii_runtime cfg_demo env_demo (query_of ascii_runtime msg_demo)
        (ready ascii_runtime cfg_demo env_demo upd_demo msg_demo world0)).2).
Proof.
  assert (Hpass : (rate_limited (uid_of upd_demo) (now_rl env_demo) (user_events world0)).1
                  = false) by (vm_compute; reflexivity).
  assert (Hinfo : (tmdb_search ascii_runtime cfg_demo env_demo
                     (query_of ascii_runtime msg_demo) world0).1
                  = Ret (PDict [("results", PList [PDict jailer_top])]))
    by (vm_compute; reflexivity).
  destruct (primary_match_wins ascii_runtime cfg_demo env_demo upd_demo world0 msg_demo
              [("results", PList [PDict jailer_top])] (PDict jailer_top) []
              Hpass eq_refl Hinfo eq_refl) as [Hquiet Hreply].
  split; [exact Hquiet|].
  apply (Hreply jailer_top 42 (PStr "2023")); reflexivity.
Defined.

Lemma jailer_end_to_end_witness :
  exists pre,
    (text_handler ascii_runtime cfg_demo env_demo upd_demo world0).1 = send env_demo /\
    trace (text_handler ascii_runtime cfg_demo env_demo upd_demo world0).2
      = trace world0 ++ pre ++ [SendPhoto 42 jailer_photo jailer_caption Markdown] /\
    Forall (fun e => is_send e = false) pre.
Proof.
  apply (jailer_end_to_end ascii_runtime cfg_demo env_demo upd_demo world0 msg_demo 42).
  - vm_compute. reflexivity.
  - reflexivity.
  - vm_compute. reflexivity.
  - reflexivity.
  - vm_compute. reflexivity.
Defined.

(** Primary finds nothing, the Secondary matches with the poster "N/A": the
    caption goes out as text. *)
Lemma poster_resolution_witness :
  text_handler ascii_runtime cfg_demo (env_tmdb_empty "N/A") upd_demo world0 =
  (Ret tt,
   {| cache := cache (text_handler ascii_runtime cfg_demo (env_tmdb_empty "N/A")
                        upd_demo world0).2;
      user_events := {[7 := [0]]};
      trace := [DbInsert 7 "Jailer" 0;
                request cfg_demo Primary "Jailer"; request cfg_demo Secondary "Jailer";
                SendMessage 42
                  (caption_of ascii_runtime (PStr "Jailer") (PStr "2023") (PStr "7.1") "IMDB")
                  Markdown] |}).
Proof.
  rewrite (proj1 (poster_resolution ascii_runtime cfg_demo)
             (env_tmdb_empty "N/A") upd_demo world0 msg_demo no_match (PList [])
             [("Title", PStr "Jailer"); ("Year", PStr "2023");
              ("imdbRating", PStr "7.1"); ("Poster", PStr "N/A");
              ("Response", PStr "True")]);
    vm_compute; reflexivity.
Defined.

(** Primary down, Secondary configured and ready to match: the handler
    raises after the Primary request. *)
Lemma lookup_failure_raises_witness :
  text_handler ascii_runtime cfg_demo env_tmdb_down upd_demo world0 =
  (Raise HTTPError,
   {| cache := ∅; user_events := {[7 := [0]]};
      trace := [DbInsert 7 "Jailer" 0; request cfg_demo Primary "Jailer"] |}).
Proof.
  rewrite (proj1 (lookup_failure_raises ascii_runtime cfg_demo env_tmdb_down upd_demo
                    world0 msg_demo HTTPError eq_refl eq_refl));
    [vm_compute; reflexivity|discriminate|reflexivity|reflexivity].
Defined.

(** A sixteenth message without a sender, from another chat, within the
    window of fifteen earlier ones: it is refused like any user's. *)
Lemma anonymous_sender_is_uid_0_witness :
  text_handler ascii_runtime cfg_demo (env_at 1 (Ret jailer_payload)) (upd_anon 99)
    world_anon_full
  = (Ret tt,
     {| cache := ∅; user_events := {[0 := repeat 0 15]};
        trace := [SendMessage 99 "⏳ Too many requests. Slow down." None] |}).
Proof.
  rewrite (proj2 (proj2 (anonymous_sender_is_uid_0 ascii_runtime cfg_demo
                           (env_at 1 (Ret jailer_payload)) (upd_anon 99)
                           world_anon_full eq_refl)));
    vm_compute; reflexivity.
Defined.

Lemma webhook_rejects_bad_credentials_witness :
  exists detail,
    (detail = "bad token" \/ detail = "bad secret") /\
    webhook cfg_demo de_json_demo process_update_demo "123:abc" (req_demo (Some "guess"))
      world0
    = (Raise (HTTPException 403 detail), world0).
Proof.
  apply (webhook_rejects_bad_credentials cfg_demo de_json_demo process_update_demo
           "123:abc" (req_demo (Some "guess")) world0).
  right. discriminate.
Defined.

(** * Where the code departs from the spec's wording *)

(** [C1] With the Primary service down and the Secondary configured and
    ready to match, [text_handler] raises [HTTPError] after the Primary
    request: no Secondary request, no reply.  Had the Primary answered with
    no match, the Secondary would have been asked and a photo sent. *)
Lemma lookup_failure_not_absorbed :
  (text_handler ascii_runtime cfg_demo env_tmdb_down upd_demo world0).1
    = Raise HTTPError /\
  trace (text_handler ascii_runtime cfg_demo env_tmdb_down upd_demo world0).2
    = [DbInsert 7 "Jailer" 0; request cfg_demo Primary "Jailer"] /\
  (text_handler ascii_runtime cfg_demo (with_primary env_tmdb_down (Ret no_match))
     upd_demo world0).1 = Ret tt /\
  trace (text_handler ascii_runtime cfg_demo (with_primary env_tmdb_down (Ret no_match))
           upd_demo world0).2
    = [DbInsert 7 "Jailer" 0;
       request cfg_demo Primary "Jailer"; request cfg_demo Secondary "Jailer";
       SendPhoto 42 (PStr "https://img.example/j.jpg")
         (caption_of ascii_runtime (PStr "Jailer") (PStr "2023") (PStr "7.1") "IMDB")
         Markdown] /\
  ~ absorbs_primary_failure ascii_runtime cfg_demo.
Proof.
  split; [vm_compute; reflexivity|].
  split; [vm_compute; reflexivity|].
  split; [vm_compute; reflexivity|].
  split; [vm_compute; reflexivity|].
  intros Habs.
  destruct (Habs env_tmdb_down upd_demo world0 HTTPError eq_refl) as [_ Hne].
  apply Hne. vm_compute. reflexivity.
Qed.

(** [C7] In the scenario the caption sent is not the one the spec quotes: it
    carries the emoji and the Markdown emphasis of the source's f-string. *)
Lemma jailer_caption_not_as_quoted :
  trace (text_handler ascii_runtime cfg_demo env_demo upd_demo world0).2
    = [DbInsert 7 "Jailer" 0; request cfg_demo Primary "Jailer";
       SendPhoto 42 jailer_photo jailer_caption Markdown] /\
  jailer_caption <> jailer_caption_spec /\
  ~ In (SendPhoto 42 jailer_photo jailer_caption_spec Markdown)
       (trace (text_handler ascii_runtime cfg_demo env_demo upd_demo world0).2).
Proof.
  assert (Htr : trace (text_handler ascii_runtime cfg_demo env_demo upd_demo world0).2
                = [DbInsert 7 "Jailer" 0; request cfg_demo Primary "Jailer";
                   SendPhoto 42 jailer_photo jailer_caption Markdown])
    by (vm_compute; reflexivity).
  split; [exact Htr|]. split; [vm_compute; discriminate|].
  rewrite Htr. intros [H|[H|[H|[]]]]; vm_compute in H; discriminate H.
Qed.

(** [C8] A Secondary match whose poster is the string "not available" is
    answered with a photo whose address is that string. *)
Lemma not_available_poster_is_sent :
  (text_handler ascii_runtime cfg_demo (env_tmdb_empty "not available") upd_demo world0).1
    = Ret tt /\
  trace (text_handler ascii_runtime cfg_demo (env_tmdb_empty "not available")
           upd_demo world0).2
    = [DbInsert 7 "Jailer" 0;
       request cfg_demo Primary "Jailer"; request cfg_demo Secondary "Jailer";
       SendPhoto 42 (PStr "not available")
         (caption_of ascii_runtime (PStr "Jailer") (PStr "2023") (PStr "7.1") "IMDB")
         Markdown].
Proof. split; vm_compute; reflexivity. Qed.

(** [C9] The clock of [utcnow()] is the wall clock.  When it steps back
    between calls, a timestamp from before the step stays behind a younger
    one and is not reached by the loop: after calls of user 7 at 100 s, 0 s
    and 50 s the deque holds 0 s although [50 - 0 > RL_WINDOW]. *)
Lemma clock_stepping_back :
  limiter_run ([(7, 100 * usec); (7, 0)] ++ [(7, 50 * usec)]) ∅ !! 7
    = Some [100 * usec; 0; 50 * usec] /\
  ~ window_ok (50 * usec) [100 * usec; 0; 50 * usec] /\
  ~ window_invariant_always.
Proof.
  assert (Hrun : limiter_run ([(7, 100 * usec); (7, 0)] ++ [(7, 50 * usec)]) ∅ !! 7
                 = Some [100 * usec; 0; 50 * usec]) by (vm_compute; reflexivity).
  assert (Hbad : ~ window_ok (50 * usec) [100 * usec; 0; 50 * usec]).
  { intros [H _]. apply Forall_cons in H as [_ H]. apply Forall_cons in H as [H _].
    vm_compute in H. apply H. reflexivity. }
  split; [exact Hrun|]. split; [exact Hbad|].
  intros Hall. apply Hbad.
  specialize (Hall [(7, 100 * usec); (7, 0)] 7 (50 * usec)).
  rewrite Hrun in Hall. exact Hall.
Qed.

(** * The further statements at concrete inputs *)

Ltac solve_sorted :=
  repeat match goal with
         | |- Sorted _ _ => constructor
         | |- HdRel _ _ _ => constructor
         | |- _ <= _ => unfold usec; lia
         end.

(** After the burst of [calls_burst], user 7 is rejected at t=1 s: fifteen
    of its calls went through within the window. *)
Lemma rejects_iff_window_full_witness :
  (rate_limited 7 (1 * usec) (limiter_run calls_burst ∅)).1
  = (RL_LIMIT <=?
       Z.of_nat (count_between (1 * usec - RL_WINDOW * usec) (1 * usec)
                   (accepted 7 calls_burst ∅))) /\
  (rate_limited 7 (1 * usec) (limiter_run calls_burst ∅)).1 = true.
Proof.
  split; [|vm_compute; reflexivity].
  apply (rejects_iff_window_full calls_burst 7 (1 * usec)).
  cbn. solve_sorted.
Defined.

Lemma admits_at_most_limit_per_window_witness :
  Z.of_nat (count_between 0 (0 + RL_WINDOW * usec)
              (accepted 7 (calls_burst ++ [(7, 1 * usec); (7, 2 * usec)]) ∅))
  <= RL_LIMIT.
Proof.
  apply (admits_at_most_limit_per_window
           (calls_burst ++ [(7, 1 * usec); (7, 2 * usec)]) 7 0).
  cbn. solve_sorted.
Defined.

Lemma throttled_message_costs_nothing_witness :
  text_handler ascii_runtime cfg_demo (env_at 1 (Ret jailer_payload)) (upd_anon 99)
    world_anon_full
  = (Ret tt,
     {| cache := ∅;
        user_events := <[0 := repeat 0 15]> {[0 := repeat 0 15]};
        trace := [SendMessage 99 "⏳ Too many requests. Slow down." None] |}).
Proof.
  rewrite (throttled_message_costs_nothing ascii_runtime cfg_demo
             (env_at 1 (Ret jailer_payload)) (upd_anon 99) world_anon_full 99);
    vm_compute; reflexivity.
Defined.

Lemma secondary_match_is_rendered_witness :
  trace (text_handler ascii_runtime cfg_demo (env_tmdb_empty "https://img.example/j.jpg")
           upd_demo world0).2
  = [DbInsert 7 "Jailer" 0;
     request cfg_demo Primary "Jailer"; request cfg_demo Secondary "Jailer";
     SendPhoto 42 (PStr "https://img.example/j.jpg")
       (caption_of ascii_runtime (PStr "Jailer") (PStr "2023") (PStr "7.1") "IMDB")
       Markdown].
Proof.
  rewrite (secondary_match_is_rendered ascii_runtime cfg_demo
             (env_tmdb_empty "https://img.example/j.jpg") upd_demo world0 msg_demo
             no_match (PList [])
             [("Title", PStr "Jailer"); ("Year", PStr "2023");
              ("imdbRating", PStr "7.1"); ("Poster", PStr "https://img.example/j.jpg");
              ("Response", PStr "True")]);
    vm_compute; reflexivity.
Defined.

Lemma no_match_gets_not_found_witness :
  trace (text_handler ascii_runtime cfg_demo env_none upd_demo world0).2
  = [DbInsert 7 "Jailer" 0;
     request cfg_demo Primary "Jailer"; request cfg_demo Secondary "Jailer";
     SendMessage 42 "❌ Not found. Try another title." None].
Proof.
  rewrite (no_match_gets_not_found ascii_runtime cfg_demo env_none upd_demo world0
             msg_demo no_match (PList []) omdb_no (PStr "False"));
    vm_compute; reflexivity.
Defined.

Lemma unconfigured_lookups_stay_offline_witness :
  text_handler ascii_runtime cfg_offline env_demo upd_demo world0
  = (Ret tt,
     {| cache := ∅; user_events := {[7 := [0]]};
        trace := [DbInsert 7 "Jailer" 0;
                  SendMessage 42 "❌ Not found. Try another title." None] |}).
Proof.
  rewrite (unconfigured_lookups_stay_offline ascii_runtime cfg_offline env_demo upd_demo
             world0 msg_demo 42);
    vm_compute; reflexivity.
Defined.

Lemma nonpositive_ttl_disables_cache_witness :
  trace (lookup ascii_runtime cfg_nocache Primary (env_at 5 (Ret jailer_payload)) "JAILER"
           (lookup ascii_runtime cfg_nocache Primary (env_at 5 (Ret jailer_payload))
              "Jailer" world0).2).2
  = trace world0 ++ [request cfg_nocache Primary "Jailer";
                     request cfg_nocache Primary "JAILER"].
Proof.
  apply (nonpositive_ttl_disables_cache ascii_runtime cfg_nocache Primary
           (env_at 5 (Ret jailer_payload)) (env_at 5 (Ret jailer_payload))
           "Jailer" "JAILER" world0 jailer_payload).
  - discriminate.
  - vm_compute. discriminate.
  - reflexivity.
  - reflexivity.
  - reflexivity.
  - vm_compute. discriminate.
Defined.

(** The same title sent again ten seconds later, with the Primary down by
    then: one request over the two runs. *)
Lemma repeated_query_one_primary_request_witness :
  (tmdb_requests
     (trace (text_handler ascii_runtime cfg_demo (env_at 10 (Raise HTTPError)) upd_demo
               (text_handler ascii_runtime cfg_demo env_demo upd_demo world0).2).2)
   <= tmdb_requests (trace world0) + 1)%nat.
Proof.
  apply (repeated_query_one_primary_request ascii_runtime cfg_demo env_demo
           (env_at 10 (Raise HTTPError)) upd_demo upd_demo world0 msg_demo msg_demo
           jailer_payload).
  - vm_compute. reflexivity.
  - reflexivity.
  - vm_compute. reflexivity.
  - reflexivity.
  - reflexivity.
  - vm_compute. reflexivity.
Defined.

Lemma tmdb_reply_errors_witness :
  exists ev,
    is_send ev = true /\
    reply_tmdb ascii_runtime env_demo upd_demo "Jailer" jailer_payload world0
    = (send env_demo, add_events [ev] world0).
Proof.
  apply (tmdb_reply_errors ascii_runtime env_demo upd_demo "Jailer" jailer_payload
           (PList [PDict jailer_top]) (PDict jailer_top) 42 world0);
    reflexivity.
Defined.

Lemma update_without_message_raises_witness :
  text_handler ascii_runtime cfg_demo env_demo upd_edit world0
  = (Raise AttributeError,
     {| cache := ∅; user_events := <[7 := [0]]> ∅; trace := [] |}).
Proof.
  rewrite (update_without_message_raises ascii_runtime cfg_demo env_demo upd_edit world0);
    vm_compute; reflexivity.
Defined.

Lemma commands_bypass_limiter_witness :
  ping_cmd env_demo (upd_anon 99) world_anon_full
  = (Ret tt, add_events [SendMessage 99 "pong ✅" None] world_anon_full).
Proof.
  apply (commands_bypass_limiter env_demo (upd_anon 99) world_anon_full 99).
  reflexivity.
Defined.

(** After the burst at t=0 and refusals at t=0 and t=1 s, user 7 is served
    at t=32 s. *)
Lemma silence_reopens_window_witness :
  (rate_limited 7 (32 * usec)
     (limiter_run (calls_burst ++ [(7, 0); (7, 1 * usec)]) ∅)).1 = false.
Proof.
  apply (silence_reopens_window (calls_burst ++ [(7, 0); (7, 1 * usec)]) 7 (32 * usec)).
  - cbn. solve_sorted.
  - unfold calls_burst. cbn [repeat app map snd].
    repeat (apply List.Forall_cons; [unfold RL_WINDOW, usec; lia|]). apply List.Forall_nil.
Defined.
